(** * The admin panel's rebuild-status protocol

    A shallow embedding of the admin client of the face-recognition
    wrapper: the wire types of [types/index.ts], the request builders of
    [services/api.ts], the [Dashboard] page with its poll timer, and the
    enrolment and person-modal handlers.  Asynchronous functions are cut at
    their [await]s: the part before an [await] runs when the function is
    called, the part after it runs when the awaited request settles, and
    timer ticks, clicks and settlements interleave in any order between the
    two, as they do on the JavaScript event loop.

    A JavaScript string is held as its UTF-8 bytes, one byte to a
    character of a Rocq string: the no-break space U+00A0 is the two bytes
    C2 A0, the line separator U+2028 the three bytes E2 80 A8.

    The admin backend that runs the rebuild job is not among the sources;
    its job record, runner and endpoints are modelled from the
    specification, in [Backend]. *)

From stdpp Require Import base numbers strings list gmap.

Set Warnings "-register-all".

Open Scope string_scope.
Open Scope Z_scope.

(** ** JavaScript truthiness, as far as the client relies on it *)

(** [s || d] on a string: the empty string is falsy. *)
Definition str_or (s d : string) : string :=
  match s with
  | EmptyString => d
  | _ => s
  end.

(** [o || d] on a [string | undefined]. *)
Definition opt_str_or (o : option string) (d : string) : string :=
  match o with
  | Some s => str_or s d
  | None => d
  end.

(** Truthiness of a [boolean | undefined]. *)
Definition truthy_flag (o : option bool) : bool :=
  match o with
  | Some b => b
  | None => false
  end.

(** Truthiness of a [number | null]: [0] and [null] are falsy. *)
Definition truthy_handle (o : option Z) : bool :=
  match o with
  | Some h => negb (Z.eqb h 0)
  | None => false
  end.

(** Truthiness of a [string | null]. *)
Definition truthy_str (o : option string) : bool :=
  match o with
  | Some EmptyString => false
  | Some _ => true
  | None => false
  end.

(** [b.toString()] on a boolean. *)
Definition bool_toString (b : bool) : string :=
  if b then "true" else "false".

(** ** types/index.ts *)

Inductive JobStatus := Idle | Rebuilding | Reloading | Completed | Failed.

Inductive TriggeredBy := ByEnroll | ByDelete | ByAddImage | ByDeleteImage | ByManual.

Module RebuildStatus.
Record t := mk {
  is_rebuilding : bool;
  progress : Z;
  status : JobStatus;
  message : string;
  started_at : option string;
  completed_at : option string;
  last_error : option string;
  triggered_by : option TriggeredBy
}.
End RebuildStatus.

Module ApiResponse.
Record t := mk {
  success : bool;
  message : option string;
  error : option string;
  rebuild_started : option bool;
  rebuild_message : option string
}.
End ApiResponse.

(** [ApiResponse & { status?: RebuildStatus }], the result type of
    [rebuildDatabase]. *)
Module RebuildDbResponse.
Record t := mk {
  base : ApiResponse.t;
  status : option RebuildStatus.t
}.
End RebuildDbResponse.

Module DatabaseInfo.
Record t := mk {
  exists_ : bool;
  size : Z;
  modified : option string
}.
End DatabaseInfo.

Module StatsResponse.
Record t := mk {
  total_identities : Z;
  total_images : Z;
  database : DatabaseInfo.t;
  rebuild_status : RebuildStatus.t
}.
End StatsResponse.

(** The interface declarations themselves, as data: field name, whether the
    field is optional ([?:]), and its declared type. *)
Inductive TsType :=
| TBoolean
| TNumber
| TString
| TNull
| TLiteral (s : string)
| TUnion (alternatives : list TsType)
| TObject (fields : list (string * (bool * TsType))).

Definition Interface := list (string * (bool * TsType)).

Definition required (t : TsType) : bool * TsType := (false, t).
Definition optional (t : TsType) : bool * TsType := (true, t).

Definition RebuildStatus_interface : Interface :=
  [ ("is_rebuilding", required TBoolean);
    ("progress", required TNumber);
    ("status", required (TUnion [TLiteral "idle"; TLiteral "rebuilding";
                                 TLiteral "reloading"; TLiteral "completed";
                                 TLiteral "failed"]));
    ("message", required TString);
    ("started_at", required (TUnion [TString; TNull]));
    ("completed_at", required (TUnion [TString; TNull]));
    ("last_error", required (TUnion [TString; TNull]));
    ("triggered_by", required (TUnion [TLiteral "enroll"; TLiteral "delete";
                                       TLiteral "add_image";
                                       TLiteral "delete_image";
                                       TLiteral "manual"; TNull])) ].

Definition ApiResponse_interface : Interface :=
  [ ("success", required TBoolean);
    ("message", optional TString);
    ("error", optional TString);
    ("rebuild_started", optional TBoolean);
    ("rebuild_message", optional TString) ].

(** [ApiResponse & { status?: RebuildStatus }]: an intersection of object
    types has the fields of both. *)
Definition RebuildDbResponse_interface : Interface :=
  (ApiResponse_interface
     ++ [ ("status", optional (TObject RebuildStatus_interface)) ])%list.

(** The declaration of field [name] in an interface, when it has one. *)
Fixpoint field (i : Interface) (name : string) : option (bool * TsType) :=
  match i with
  | [] => None
  | (n, d) :: rest => if String.eqb n name then Some d else field rest name
  end.

(** JSON values, as the endpoints put them on the wire. *)
Inductive Json :=
| JNull
| JBool (b : bool)
| JNum (n : Z)
| JStr (s : string)
| JObj (members : list (string * Json)).

Fixpoint member (o : list (string * Json)) (name : string) : option Json :=
  match o with
  | [] => None
  | (n, v) :: rest => if String.eqb n name then Some v else member rest name
  end.

(** Whether a JSON value inhabits a declared type.  An object inhabits an
    object type when every required field is present with its type and
    every optional field, if present, has its type. *)
Fixpoint has_type (t : TsType) (j : Json) {struct t} : bool :=
  match t with
  | TBoolean => match j with JBool _ => true | _ => false end
  | TNumber => match j with JNum _ => true | _ => false end
  | TString => match j with JStr _ => true | _ => false end
  | TNull => match j with JNull => true | _ => false end
  | TLiteral s => match j with JStr s' => String.eqb s s' | _ => false end
  | TUnion ts =>
      (fix any (ts : list TsType) : bool :=
         match ts with
         | [] => false
         | t' :: rest => has_type t' j || any rest
         end) ts
  | TObject fs =>
      match j with
      | JObj o =>
          (fix all (fs : list (string * (bool * TsType))) : bool :=
             match fs with
             | [] => true
             | (n, (opt, t')) :: rest =>
                 match member o n with
                 | Some v => has_type t' v
                 | None => opt
                 end && all rest
             end) fs
      | _ => false
      end
  end.

Definition conforms (i : Interface) (j : Json) : bool := has_type (TObject i) j.

(** [j[name]] on a JSON value: [None] is [undefined]. *)
Definition property (j : Json) (name : string) : option Json :=
  match j with
  | JObj o => member o name
  | _ => None
  end.

Definition JobStatus_to_string (s : JobStatus) : string :=
  match s with
  | Idle => "idle"
  | Rebuilding => "rebuilding"
  | Reloading => "reloading"
  | Completed => "completed"
  | Failed => "failed"
  end.

Definition TriggeredBy_to_string (b : TriggeredBy) : string :=
  match b with
  | ByEnroll => "enroll"
  | ByDelete => "delete"
  | ByAddImage => "add_image"
  | ByDeleteImage => "delete_image"
  | ByManual => "manual"
  end.

Definition nullable (o : option string) : Json :=
  match o with
  | Some s => JStr s
  | None => JNull
  end.

(** The JSON object a [RebuildStatus] value is on the wire. *)
Definition RebuildStatus_to_json (r : RebuildStatus.t) : Json :=
  JObj [ ("is_rebuilding", JBool (RebuildStatus.is_rebuilding r));
         ("progress", JNum (RebuildStatus.progress r));
         ("status", JStr (JobStatus_to_string (RebuildStatus.status r)));
         ("message", JStr (RebuildStatus.message r));
         ("started_at", nullable (RebuildStatus.started_at r));
         ("completed_at", nullable (RebuildStatus.completed_at r));
         ("last_error", nullable (RebuildStatus.last_error r));
         ("triggered_by",
           nullable (TriggeredBy_to_string <$> RebuildStatus.triggered_by r)) ].

(** ** services/api.ts *)

Module Api.

Inductive Method := GET | POST.

(** A [File] is identified by its name; its content plays no part here. *)
Definition File := string.

Inductive FormValue :=
| Text (s : string)
| Blob (f : File).

(** [FormData]: entries in the order they were appended; a name may
    repeat. *)
Definition FormData := list (string * FormValue).

Record Request := mkRequest {
  method : Method;
  url : string;
  body : option FormData
}.

Definition get (u : string) : Request := mkRequest GET u None.
Definition post (u : string) (b : option FormData) : Request := mkRequest POST u b.

(** A parameter declared [autoRebuild: boolean = true]: an omitted
    argument takes the default. *)
Definition autoRebuild_arg (a : option bool) : bool := default true a.

Definition enrollPerson (name info : string) (images : list File)
    (autoRebuild : option bool) : Request :=
  let formData :=
    ([ ("name", Text name);
       ("info", Text info);
       ("auto_rebuild", Text (bool_toString (autoRebuild_arg autoRebuild))) ]
       ++ map (fun file => ("images", Blob file)) images)%list in
  post "/api/enroll" (Some formData).

Definition addImage (person : string) (image : File)
    (autoRebuild : option bool) : Request :=
  let formData :=
    [ ("person", Text person);
      ("image", Blob image);
      ("auto_rebuild", Text (bool_toString (autoRebuild_arg autoRebuild))) ] in
  post "/api/add_image" (Some formData).

Definition deletePerson (person : string) (autoRebuild : option bool) : Request :=
  let formData :=
    [ ("person", Text person);
      ("auto_rebuild", Text (bool_toString (autoRebuild_arg autoRebuild))) ] in
  post "/api/delete_person" (Some formData).

Definition deleteImage (person filename : string)
    (autoRebuild : option bool) : Request :=
  let formData :=
    [ ("person", Text person);
      ("filename", Text filename);
      ("auto_rebuild", Text (bool_toString (autoRebuild_arg autoRebuild))) ] in
  post "/api/delete_image" (Some formData).

Definition rebuildDatabase : Request := post "/api/rebuild_db" None.
Definition getRebuildStatus : Request := get "/api/rebuild_status".
Definition getStats : Request := get "/api/stats".

(** [formData.getAll(name)]: every value appended under [name]. *)
Definition getAll (name : string) (r : Request) : list FormValue :=
  match body r with
  | Some fd => (filter (fun e => e.1 = name) fd).*2
  | None => []
  end.

End Api.

(** ** App.tsx: the toast kinds [showToast] accepts *)

Inductive ToastKind := success | error | warning | info.

(** The callbacks a component receives from its parent or its router. *)
Inductive Callback :=
| onClose
| onPersonDeleted
| onImageAdded
| resetFileInput
| navigate (path : string).

(** What a component does to the outside, oldest first in a trace:
    requests it sends, toasts it shows, callbacks it invokes. *)
Inductive Effect :=
| Sent (r : Api.Request)
| Toast (message : string) (kind : ToastKind)
| Called (c : Callback).

Definition is_sent (r : Api.Request) (e : Effect) : bool :=
  match e with
  | Sent r' => String.eqb (Api.url r) (Api.url r')
  | _ => false
  end.

(** How many requests to the endpoint of [r] a trace holds. *)
Definition sent (r : Api.Request) (t : list Effect) : nat :=
  length (List.filter (is_sent r) t).

(** The toasts of a trace, in order. *)
Definition toasts (t : list Effect) : list (string * ToastKind) :=
  omap (fun e => match e with Toast m k => Some (m, k) | _ => None end) t.

(** ** pages/Dashboard.tsx *)

Module Dashboard.

(** What runs with the result of [loadStats()]:
    the [.then] of the mount effect, the rest of [pollRebuildStatus]
    after its [await loadStats()] (with its local [status]), or nothing
    (the Refresh button). *)
Inductive AfterLoad :=
| ThenEffect
| ThenPoll (status : RebuildStatus.t)
| ThenNothing.

(** An asynchronous function suspended at an [await]. *)
Inductive Awaiting :=
| AwaitStats (k : AfterLoad)      (* [await getStats()] in [loadStats] *)
| AwaitStatus                     (* [await getRebuildStatus()] *)
| AwaitRebuild.                   (* [await rebuildDatabase()] *)

(** How a request settles: the promise rejects, or resolves with data. *)
Inductive Outcome :=
| Rejected
| StatsOk (data : StatsResponse.t)
| StatusOk (status : RebuildStatus.t)
| RebuildOk (response : RebuildDbResponse.t).

Inductive Lifecycle := Fresh | Mounted | Unmounted.

Record State := mkState {
  (* component state *)
  stats : option StatsResponse.t;
  rebuildStatus : option RebuildStatus.t;
  loading : bool;
  pollIntervalRef : option Z;
  lifecycle : Lifecycle;
  (* the window's interval timers: handle to delay in milliseconds; the
     only callback this page registers is [() => pollRebuildStatus()] *)
  intervals : gmap Z Z;
  next_handle : Z;
  (* requests in flight and what awaits each *)
  inflight : gmap nat Awaiting;
  next_request : nat;
  trace : list Effect
}.

Definition init : State :=
  mkState None None true None Fresh ∅ 1 ∅ 0%nat [].

Definition setStats (v : option StatsResponse.t) (s : State) : State :=
  mkState v (rebuildStatus s) (loading s) (pollIntervalRef s) (lifecycle s)
          (intervals s) (next_handle s) (inflight s) (next_request s) (trace s).

Definition setRebuildStatus (v : option RebuildStatus.t) (s : State) : State :=
  mkState (stats s) v (loading s) (pollIntervalRef s) (lifecycle s)
          (intervals s) (next_handle s) (inflight s) (next_request s) (trace s).

Definition setLoading (v : bool) (s : State) : State :=
  mkState (stats s) (rebuildStatus s) v (pollIntervalRef s) (lifecycle s)
          (intervals s) (next_handle s) (inflight s) (next_request s) (trace s).

Definition set_pollIntervalRef (v : option Z) (s : State) : State :=
  mkState (stats s) (rebuildStatus s) (loading s) v (lifecycle s)
          (intervals s) (next_handle s) (inflight s) (next_request s) (trace s).

Definition set_lifecycle (v : Lifecycle) (s : State) : State :=
  mkState (stats s) (rebuildStatus s) (loading s) (pollIntervalRef s) v
          (intervals s) (next_handle s) (inflight s) (next_request s) (trace s).

Definition showToast (message : string) (kind : ToastKind) (s : State) : State :=
  mkState (stats s) (rebuildStatus s) (loading s) (pollIntervalRef s) (lifecycle s)
          (intervals s) (next_handle s) (inflight s) (next_request s)
          (trace s ++ [Toast message kind])%list.

(** Sending a request: it goes on the wire now, and the caller is
    suspended until it settles. *)
Definition send (r : Api.Request) (k : Awaiting) (s : State) : State :=
  mkState (stats s) (rebuildStatus s) (loading s) (pollIntervalRef s) (lifecycle s)
          (intervals s) (next_handle s)
          (<[next_request s := k]> (inflight s)) (S (next_request s))
          (trace s ++ [Sent r])%list.

Definition settled (rid : nat) (s : State) : State :=
  mkState (stats s) (rebuildStatus s) (loading s) (pollIntervalRef s) (lifecycle s)
          (intervals s) (next_handle s) (delete rid (inflight s)) (next_request s)
          (trace s).

(** [window.setInterval(callback, delay)]: registers the timer and returns
    its handle, an integer greater than zero that names no other timer;
    the window is taken to count its handles up from 1. *)
Definition setInterval (delay : Z) (s : State) : Z * State :=
  (next_handle s,
   mkState (stats s) (rebuildStatus s) (loading s) (pollIntervalRef s) (lifecycle s)
           (<[next_handle s := delay]> (intervals s)) (next_handle s + 1)
           (inflight s) (next_request s) (trace s)).

(** [clearInterval(handle)] on a [number | null]: a handle that names no
    timer is ignored, and so is [null]. *)
Definition clearInterval (handle : option Z) (s : State) : State :=
  match handle with
  | Some h =>
      mkState (stats s) (rebuildStatus s) (loading s) (pollIntervalRef s) (lifecycle s)
              (delete h (intervals s)) (next_handle s) (inflight s) (next_request s)
              (trace s)
  | None => s
  end.

(** [rebuildStatus?.is_rebuilding] *)
Definition is_rebuilding (o : option RebuildStatus.t) : bool :=
  match o with
  | Some r => RebuildStatus.is_rebuilding r
  | None => false
  end.

(** [status.status === 'completed' || status.status === 'failed'] *)
Definition finished (status : RebuildStatus.t) : bool :=
  match RebuildStatus.status status with
  | Completed | Failed => true
  | _ => false
  end.

(** [loadStats], up to its [await getStats()]. *)
Definition loadStats (k : AfterLoad) (s : State) : State :=
  send Api.getStats (AwaitStats k) s.

(** [loadStats], from its [await] on: [data] is [None] when the request
    failed.  Returns what the promise of [loadStats] resolves to. *)
Definition loadStats_settled (data : option StatsResponse.t) (s : State)
    : option RebuildStatus.t * State :=
  match data with
  | Some d =>
      let s := setStats (Some d) s in
      let s := setRebuildStatus (Some (StatsResponse.rebuild_status d)) s in
      (Some (StatsResponse.rebuild_status d), setLoading false s)
  | None =>
      let s := showToast "Failed to load dashboard data" error s in
      (None, setLoading false s)
  end.

(** [pollRebuildStatus], up to its [await getRebuildStatus()]. *)
Definition pollRebuildStatus (s : State) : State :=
  send Api.getRebuildStatus AwaitStatus s.

(** [pollRebuildStatus], from [await getRebuildStatus()] up to its
    [await loadStats()] or its end; a rejected request lands in the
    [catch], which returns [null]. *)
Definition pollRebuildStatus_settled (r : option RebuildStatus.t) (s : State) : State :=
  match r with
  | Some status =>
      let s := setRebuildStatus (Some status) s in
      if finished status then loadStats (ThenPoll status) s else s
  | None => s
  end.

(** [pollRebuildStatus], after its [await loadStats()]. *)
Definition pollRebuildStatus_refreshed (status : RebuildStatus.t) (s : State) : State :=
  let s :=
    if truthy_handle (pollIntervalRef s) then
      set_pollIntervalRef None (clearInterval (pollIntervalRef s) s)
    else s in
  match RebuildStatus.status status with
  | Completed =>
      showToast (str_or (RebuildStatus.message status) "Database rebuild completed!")
                success s
  | Failed =>
      showToast (str_or (RebuildStatus.message status) "Database rebuild failed")
                error s
  | _ => s
  end.

Definition startPolling (s : State) : State :=
  if truthy_handle (pollIntervalRef s) then s
  else
    let '(h, s) := setInterval 1000 s in
    set_pollIntervalRef (Some h) s.

(** The mount effect: [loadStats().then(...)]. *)
Definition effect (s : State) : State := loadStats ThenEffect s.

(** The [.then] callback of the mount effect. *)
Definition effect_then (status : option RebuildStatus.t) (s : State) : State :=
  if is_rebuilding status then startPolling s else s.

(** The cleanup the mount effect returns. *)
Definition cleanup (s : State) : State :=
  if truthy_handle (pollIntervalRef s) then
    clearInterval (pollIntervalRef s) s
  else s.

(** [handleRebuild], up to its [await rebuildDatabase()]. *)
Definition handleRebuild (s : State) : State :=
  if is_rebuilding (rebuildStatus s) then
    showToast "Rebuild already in progress" warning s
  else send Api.rebuildDatabase AwaitRebuild s.

(** [handleRebuild], from its [await] on. *)
Definition handleRebuild_settled (r : option RebuildDbResponse.t) (s : State) : State :=
  match r with
  | Some response =>
      if ApiResponse.success (RebuildDbResponse.base response) then
        startPolling (showToast "Database rebuild started..." info s)
      else
        showToast ("Failed to start rebuild: " +:+
                     opt_str_or (ApiResponse.error (RebuildDbResponse.base response))
                                "Unknown error")
                  error s
  | None => showToast "Failed to start database rebuild" error s
  end.

(** What the page shows (the parts that depend on the rebuild status). *)
Record Page := mkPage {
  status_label : JobStatus;
  pulsing : bool;
  progress_bar : option Z;
  rebuild_message : string;
  rebuild_error : option string;
  rebuild_button_disabled : bool;
  rebuild_button_label : string
}.

Inductive View :=
| Spinner
| Shown (p : Page).

Definition render (s : State) : View :=
  if loading s then Spinner
  else
    let rs := rebuildStatus s in
    Shown
      (mkPage
         (default Idle (RebuildStatus.status <$> rs))
         (is_rebuilding rs)
         (if is_rebuilding rs then RebuildStatus.progress <$> rs else None)
         (opt_str_or (RebuildStatus.message <$> rs) "System is idle")
         (if truthy_str (rs ≫= RebuildStatus.last_error)
          then rs ≫= RebuildStatus.last_error else None)
         (is_rebuilding rs)
         (if is_rebuilding rs then "Rebuilding..." else "Manual Rebuild")).

(** ** The event loop *)

Inductive Event :=
| Mount
| Unmount
| Tick (handle : Z)
| ClickRebuild
| ClickRefresh
| Settle (request : nat) (o : Outcome).

(** What runs once [loadStats()] has resolved. *)
Definition after_load (k : AfterLoad) (r : option RebuildStatus.t * State) : State :=
  match k with
  | ThenEffect => effect_then r.1 r.2
  | ThenPoll status => pollRebuildStatus_refreshed status r.2
  | ThenNothing => r.2
  end.

(** Resuming a suspended function with the outcome of its request; an
    outcome of the wrong shape for the request is not a possible event. *)
Definition resume (k : Awaiting) (o : Outcome) (s : State) : option State :=
  match k, o with
  | AwaitStats k', StatsOk data => Some (after_load k' (loadStats_settled (Some data) s))
  | AwaitStats k', Rejected => Some (after_load k' (loadStats_settled None s))
  | AwaitStatus, StatusOk status => Some (pollRebuildStatus_settled (Some status) s)
  | AwaitStatus, Rejected => Some (pollRebuildStatus_settled None s)
  | AwaitRebuild, RebuildOk response => Some (handleRebuild_settled (Some response) s)
  | AwaitRebuild, Rejected => Some (handleRebuild_settled None s)
  | _, _ => None
  end.

(** The buttons are on the page once it is mounted and no longer shows the
    spinner.  The [disabled] attribute of the rebuild button is not taken
    to block the click, so that the guard [handleRebuild] has of its own is
    exercised. *)
Definition buttons_shown (s : State) : bool :=
  match lifecycle s, loading s with
  | Mounted, false => true
  | _, _ => false
  end.

(** One turn of the event loop; [None] when the event cannot happen in
    this state (a timer that is not registered, a request that is not in
    flight, a click on a button that is not on the page). *)
Definition step (e : Event) (s : State) : option State :=
  match e with
  | Mount =>
      match lifecycle s with
      | Fresh => Some (effect (set_lifecycle Mounted s))
      | _ => None
      end
  | Unmount =>
      match lifecycle s with
      | Mounted => Some (cleanup (set_lifecycle Unmounted s))
      | _ => None
      end
  | Tick h =>
      match intervals s !! h with
      | Some _ => Some (pollRebuildStatus s)
      | None => None
      end
  | ClickRebuild => if buttons_shown s then Some (handleRebuild s) else None
  | ClickRefresh => if buttons_shown s then Some (loadStats ThenNothing s) else None
  | Settle rid o =>
      match inflight s !! rid with
      | Some k => resume k o (settled rid s)
      | None => None
      end
  end.

Fixpoint run (es : list Event) (s : State) : option State :=
  match es with
  | [] => Some s
  | e :: es' =>
      match step e s with
      | Some s' => run es' s'
      | None => None
      end
  end.

(** The states the page can be in. *)
Definition reachable (s : State) : Prop := ∃ es, run es init = Some s.

End Dashboard.

(** ** components/PersonModal.tsx *)

Module PersonModal.

Record State := mkState {
  selectedFile : option Api.File;
  isDeleting : bool;
  isAdding : bool;
  deletingImage : option string;
  trace : list Effect
}.

Definition init : State := mkState None false false None [].

Definition setSelectedFile (v : option Api.File) (s : State) : State :=
  mkState v (isDeleting s) (isAdding s) (deletingImage s) (trace s).

Definition setIsDeleting (v : bool) (s : State) : State :=
  mkState (selectedFile s) v (isAdding s) (deletingImage s) (trace s).

Definition setIsAdding (v : bool) (s : State) : State :=
  mkState (selectedFile s) (isDeleting s) v (deletingImage s) (trace s).

Definition setDeletingImage (v : option string) (s : State) : State :=
  mkState (selectedFile s) (isDeleting s) (isAdding s) v (trace s).

Definition emit (e : Effect) (s : State) : State :=
  mkState (selectedFile s) (isDeleting s) (isAdding s) (deletingImage s)
          (trace s ++ [e])%list.

Definition showToast (message : string) (kind : ToastKind) : State → State :=
  emit (Toast message kind).

Section WithName.

(** The [name] prop: the person the modal is open on. *)
Variable name : string.

(** [handleDelete], up to its [await]; [confirmed] is the answer to the
    [confirm] dialog. *)
Definition handleDelete (confirmed : bool) (s : State) : State :=
  if negb confirmed then s
  else emit (Sent (Api.deletePerson name None)) (setIsDeleting true s).

(** [handleDelete], from its [await] on; [None] is a rejected request. *)
Definition handleDelete_settled (r : option ApiResponse.t) (s : State) : State :=
  let s :=
    match r with
    | Some response =>
        if ApiResponse.success response then
          let s := showToast (opt_str_or (ApiResponse.message response)
                                         "Person deleted successfully") success s in
          let s := if truthy_flag (ApiResponse.rebuild_started response)
                   then showToast "Database rebuild started automatically..." info s
                   else s in
          emit (Called onClose) (emit (Called onPersonDeleted) s)
        else
          showToast (opt_str_or (ApiResponse.error response)
                                "Failed to delete person") error s
    | None => showToast "Failed to delete person" error s
    end in
  setIsDeleting false s.

(** [handleAddImage], up to its [await]. *)
Definition handleAddImage (s : State) : State :=
  match selectedFile s with
  | None => showToast "Please select an image" warning s
  | Some file => emit (Sent (Api.addImage name file None)) (setIsAdding true s)
  end.

Definition handleAddImage_settled (r : option ApiResponse.t) (s : State) : State :=
  let s :=
    match r with
    | Some response =>
        if ApiResponse.success response then
          let s := showToast (opt_str_or (ApiResponse.message response)
                                         "Image added successfully") success s in
          let s := if truthy_flag (ApiResponse.rebuild_started response)
                   then showToast "Database rebuild started automatically..." info s
                   else s in
          let s := setSelectedFile None s in
          emit (Called onImageAdded) (emit (Called resetFileInput) s)
        else
          showToast (opt_str_or (ApiResponse.error response)
                                "Failed to add image") error s
    | None => showToast "Failed to add image" error s
    end in
  setIsAdding false s.

(** [handleDeleteImage], up to its [await]. *)
Definition handleDeleteImage (filename : string) (confirmed : bool) (s : State) : State :=
  if negb confirmed then s
  else emit (Sent (Api.deleteImage name filename None))
            (setDeletingImage (Some filename) s).

Definition handleDeleteImage_settled (r : option ApiResponse.t) (s : State) : State :=
  let s :=
    match r with
    | Some response =>
        if ApiResponse.success response then
          let s := showToast "Image deleted successfully" success s in
          let s := if truthy_flag (ApiResponse.rebuild_started response)
                   then showToast "Database rebuild started automatically..." info s
                   else s in
          emit (Called onImageAdded) s
        else
          showToast (opt_str_or (ApiResponse.error response)
                                "Failed to delete image") error s
    | None => showToast "Failed to delete image" error s
    end in
  setDeletingImage None s.

End WithName.

End PersonModal.

(** ** pages/Enroll.tsx *)

Module Enroll.

Record State := mkState {
  name : string;
  info_ : string;
  files : option (list Api.File);
  isSubmitting : bool;
  trace : list Effect
}.

Definition setName (v : string) (s : State) : State :=
  mkState v (info_ s) (files s) (isSubmitting s) (trace s).

Definition setInfo (v : string) (s : State) : State :=
  mkState (name s) v (files s) (isSubmitting s) (trace s).

Definition setFiles (v : option (list Api.File)) (s : State) : State :=
  mkState (name s) (info_ s) v (isSubmitting s) (trace s).

Definition setIsSubmitting (v : bool) (s : State) : State :=
  mkState (name s) (info_ s) (files s) v (trace s).

Definition emit (e : Effect) (s : State) : State :=
  mkState (name s) (info_ s) (files s) (isSubmitting s) (trace s ++ [e])%list.

Definition showToast (message : string) (kind : ToastKind) : State → State :=
  emit (Toast message kind).

(** The code points [String.prototype.trim] strips are the WhiteSpace and
    LineTerminator code points of ECMAScript: tab, line feed, vertical
    tab, form feed, carriage return, space, no-break space (U+00A0), the
    other space separators of Unicode (U+1680, U+2000 to U+200A, U+202F,
    U+205F, U+3000), the line and paragraph separators (U+2028, U+2029)
    and the byte order mark (U+FEFF). *)
Definition white_space : list N :=
  [9; 10; 11; 12; 13; 32; 160; 5760;
   8192; 8193; 8194; 8195; 8196; 8197; 8198; 8199; 8200; 8201; 8202;
   8232; 8233; 8239; 8287; 12288; 65279]%N.

(** The UTF-8 bytes of a code point below U+10000. *)
Definition utf8 (c : N) : string :=
  if (c <? 128)%N then String (Ascii.ascii_of_N c) EmptyString
  else if (c <? 2048)%N then
    String (Ascii.ascii_of_N (192 + c / 64))
      (String (Ascii.ascii_of_N (128 + c mod 64)) EmptyString)
  else
    String (Ascii.ascii_of_N (224 + c / 4096))
      (String (Ascii.ascii_of_N (128 + (c / 64) mod 64))
         (String (Ascii.ascii_of_N (128 + c mod 64)) EmptyString)).

(** The bytes [w] are one white-space code point. *)
Definition is_space (w : string) : bool :=
  existsb (fun c => String.eqb w (utf8 c)) white_space.

(** [s.trimStart()]: the white-space code points at the start go, one
    after the other; a code point takes one, two or three bytes. *)
Fixpoint trimStart (s : string) : string :=
  match s with
  | EmptyString => s
  | String a r1 =>
      if is_space (String a EmptyString) then trimStart r1
      else
        match r1 with
        | EmptyString => s
        | String b r2 =>
            if is_space (String a (String b EmptyString)) then trimStart r2
            else
              match r2 with
              | EmptyString => s
              | String c r3 =>
                  if is_space (String a (String b (String c EmptyString)))
                  then trimStart r3
                  else s
              end
        end
  end.

(** A string of white space only. *)
Definition blank (s : string) : bool :=
  match trimStart s with
  | EmptyString => true
  | _ => false
  end.

(** [s.trimEnd()]: the string is cut where what is left of it is white
    space only. *)
Fixpoint trimEnd (s : string) : string :=
  match s with
  | EmptyString => s
  | String a rest => if blank s then EmptyString else String a (trimEnd rest)
  end.

Definition trim (s : string) : string := trimEnd (trimStart s).

(** [handleSubmit], up to its [await]. *)
Definition handleSubmit (s : State) : State :=
  match trim (name s) with
  | EmptyString => showToast "Person name cannot be empty." warning s
  | _ =>
      match files s with
      | None | Some [] => showToast "Please select at least one image." warning s
      | Some fs =>
          emit (Sent (Api.enrollPerson (trim (name s)) (info_ s) fs None))
               (setIsSubmitting true s)
      end
  end.

(** [handleSubmit], from its [await] on; [None] is a rejected request. *)
Definition handleSubmit_settled (r : option ApiResponse.t) (s : State) : State :=
  let s :=
    match r with
    | Some response =>
        if ApiResponse.success response then
          let s := showToast (opt_str_or (ApiResponse.message response)
                                         "Person enrolled successfully") success s in
          let s := if truthy_flag (ApiResponse.rebuild_started response)
                   then showToast "Database rebuild started automatically..." info s
                   else s in
          let s := setFiles None (setInfo "" (setName "" s)) in
          emit (Called (navigate "/identities")) (emit (Called resetFileInput) s)
        else
          showToast (opt_str_or (ApiResponse.error response) "Enrollment failed") error s
    | None => showToast "Failed to enroll person" error s
    end in
  setIsSubmitting false s.

End Enroll.


(** ** The rebuild job tracker of the admin backend *)

Module Backend.

(** Modelled from the spec: the RebuildJob record of the Job State Store
    (data model table); the admin backend that holds it is not among the
    sources.  Timestamps are kept as the text the client receives. *)
Record RebuildJob := mkJob {
  is_running : bool;
  progress : Z;
  status : JobStatus;
  message : string;
  started_at : option string;
  completed_at : option string;
  last_error : option string;
  triggered_by : option TriggeredBy
}.

(** Modelled from the spec: the record at process start, "created/reset at
    process start in idle state"; the Job State Store itself is missing. *)
Definition idle : RebuildJob :=
  mkJob false 0 Idle "" None None None None.

(** Modelled from the spec: the running start state a trigger resets the
    record to, "a fresh record" with [is_running=true], [status=rebuilding],
    [started_at=now], [progress=0] and the provenance tag; the Trigger
    Endpoint is missing. *)
Definition start (now : string) (tag : TriggeredBy) : RebuildJob :=
  mkJob true 0 Rebuilding "" (Some now) None None (Some tag).

(** Modelled from the spec: the result of the Trigger Endpoint,
    [{success: bool, error?: string, status?: RebuildJob}]; the endpoint is
    missing. *)
Record TriggerResult := mkResult {
  success : bool;
  error : option string;
  result_status : option RebuildJob
}.

(** Modelled from the spec: the Trigger Endpoint, which is missing.  "If
    [is_running] is currently true, reject immediately with a 'rebuild
    already in progress' result (no state change)", as a returned failure
    indicator; otherwise reset the record to its running start state and
    acknowledge. *)
Definition trigger (now : string) (tag : TriggeredBy) (j : RebuildJob)
    : TriggerResult * RebuildJob :=
  if is_running j then (mkResult false (Some "already in progress") None, j)
  else (mkResult true None (Some (start now tag)), start now tag).

(** Modelled from the spec: the writes of the Job Runner, which is missing.
    It "periodically updates progress and message as it advances through
    known phases", moves from rebuilding to reloading, and ends in
    completed or failed. *)
Inductive Write :=
| Advance (p : Z) (msg : string)
| Reload (msg : string)
| Succeed (now : string)
| Fail (now : string) (err : string).

(** Modelled from the spec: one write of the Job Runner on the record.
    The runner only exists between a start and a terminal state; progress
    stays within 0..100 and never decreases while running.  On success:
    [status=completed], [is_running=false], [completed_at=now],
    [progress=100]; on failure: [status=failed], [is_running=false],
    [completed_at=now], [last_error] set. *)
Definition write (w : Write) (j : RebuildJob) : option RebuildJob :=
  if is_running j then
    match w with
    | Advance p msg =>
        if (progress j <=? p) && (p <=? 100) then
          Some (mkJob true p (status j) msg (started_at j) (completed_at j)
                      (last_error j) (triggered_by j))
        else None
    | Reload msg =>
        Some (mkJob true (progress j) Reloading msg (started_at j) (completed_at j)
                    (last_error j) (triggered_by j))
    | Succeed now =>
        Some (mkJob false 100 Completed (message j) (started_at j) (Some now)
                    (last_error j) (triggered_by j))
    | Fail now err =>
        Some (mkJob false (progress j) Failed (message j) (started_at j) (Some now)
                    (Some err) (triggered_by j))
    end
  else None.

(** Modelled from the spec: what can happen to the record, a trigger call
    or a write of the runner; the backend process is missing. *)
Inductive Action :=
| Trigger (now : string) (tag : TriggeredBy)
| Runner (w : Write).

(** Modelled from the spec: the effect of one action on the record; the
    backend process is missing.  A write of the runner while no job runs
    cannot happen. *)
Definition act (a : Action) (j : RebuildJob) : option RebuildJob :=
  match a with
  | Trigger now tag => Some (trigger now tag j).2
  | Runner w => write w j
  end.

(** Modelled from the spec: a history of the record, action after action;
    the backend process is missing. *)
Fixpoint run (acts : list Action) (j : RebuildJob) : option RebuildJob :=
  match acts with
  | [] => Some j
  | a :: rest =>
      match act a j with
      | Some j' => run rest j'
      | None => None
      end
  end.

(** Modelled from the spec: the records the backend can hold, from its
    idle record at process start on; the backend process is missing. *)
Definition reachable (j : RebuildJob) : Prop := ∃ acts, run acts idle = Some j.

(** Modelled from the spec: the Status Query Endpoint, which is missing: a
    pure read that returns the record.  On the wire the running flag goes
    under the name the client's [RebuildStatus] interface declares for it. *)
Definition read (j : RebuildJob) : RebuildStatus.t :=
  RebuildStatus.mk (is_running j) (progress j) (status j) (message j)
                   (started_at j) (completed_at j) (last_error j) (triggered_by j).

(** Modelled from the spec: the body of the trigger response as the client
    receives it, typed [ApiResponse & { status?: RebuildStatus }]. *)
Definition respond (r : TriggerResult) : RebuildDbResponse.t :=
  RebuildDbResponse.mk
    (ApiResponse.mk (success r) None (error r) None None)
    (read <$> result_status r).

End Backend.


(** ** App.tsx: the toast list *)

Module App.

Record ToastItem := mkToast {
  id : Z;
  message : string;
  kind : ToastKind
}.

Record State := mkState {
  toasts : list ToastItem;
  sidebarCollapsed : bool
}.

Definition init : State := mkState [] false.

(** [showToast]: the new toast takes [Date.now()], the clock in
    milliseconds, as its id and goes to the end of the list. *)
Definition showToast (now : Z) (message : string) (kind : ToastKind) (s : State) : State :=
  mkState (toasts s ++ [mkToast now message kind])%list (sidebarCollapsed s).

(** [removeToast]: keeps the toasts whose id differs. *)
Definition removeToast (i : Z) (s : State) : State :=
  mkState (filter (λ toast, id toast ≠ i) (toasts s)) (sidebarCollapsed s).

Definition toggleSidebar (s : State) : State :=
  mkState (toasts s) (negb (sidebarCollapsed s)).

End App.

(** ** services/api.ts: the read operations and the image URL *)

Module ApiRead.

Definition API_BASE : string := "http://localhost:5001".

(** The characters [encodeURIComponent] leaves as they are: letters,
    digits and [- _ . ! ~ * ' ( )]. *)
Definition unreserved (a : Ascii.ascii) : bool :=
  let n := Ascii.nat_of_ascii a in
  ((65 <=? n) && (n <=? 90))%nat || ((97 <=? n) && (n <=? 122))%nat
  || ((48 <=? n) && (n <=? 57))%nat
  || (n =? 45)%nat || (n =? 95)%nat || (n =? 46)%nat || (n =? 33)%nat
  || (n =? 126)%nat || (n =? 42)%nat || (n =? 39)%nat || (n =? 40)%nat
  || (n =? 41)%nat.

(** An upper-case hexadecimal digit. *)
Definition hex_digit (n : nat) : Ascii.ascii :=
  if (n <? 10)%nat then Ascii.ascii_of_nat (48 + n) else Ascii.ascii_of_nat (55 + n).

(** The escape of one byte: [%XX]. *)
Definition escape (a : Ascii.ascii) : string :=
  let n := Ascii.nat_of_ascii a in
  "%" +:+ String (hex_digit (n / 16)) (String (hex_digit (n mod 16)) EmptyString).

(** [encodeURIComponent] on a string held as its UTF-8 bytes: an
    unreserved character stays, every other byte is escaped. *)
Fixpoint encodeURIComponent (s : string) : string :=
  match s with
  | EmptyString => EmptyString
  | String a rest =>
      (if unreserved a then String a EmptyString else escape a)
      +:+ encodeURIComponent rest
  end.

Definition getIdentities : Api.Request := Api.get "/api/identities".

Definition getPerson (name : string) : Api.Request :=
  Api.get ("/api/person/" +:+ encodeURIComponent name).

Definition getImageUrl (person filename : string) : string :=
  API_BASE +:+ "/images/" +:+ encodeURIComponent person +:+ "/"
  +:+ encodeURIComponent filename.

Definition getLatestLog : Api.Request := Api.get "/api/latest_log".

End ApiRead.

(** ** client/whatsapp_bot.js: the alert endpoint *)

Module WhatsappBot.

Definition is_digit (a : Ascii.ascii) : bool :=
  let n := Ascii.nat_of_ascii a in
  ((48 <=? n) && (n <=? 57))%nat.

(** [s.replace(/\D/g, '')]: the decimal digits of [s], in order. *)
Fixpoint digits (s : string) : string :=
  match s with
  | EmptyString => EmptyString
  | String a rest => if is_digit a then String a (digits rest) else digits rest
  end.

(** Truthiness of a property of the request body: a missing property is
    [undefined]. *)
Definition truthy (v : option Json) : bool :=
  match v with
  | None | Some JNull => false
  | Some (JBool b) => b
  | Some (JNum n) => negb (Z.eqb n 0)
  | Some (JStr s) => match s with EmptyString => false | _ => true end
  | Some (JObj _) => true
  end.

(** What the endpoint does to the chat client. *)
Inductive BotEffect :=
| SendMessage (chatId : string) (content : Json).

Record HttpResponse := mkResponse {
  status : Z;
  body : Json
}.

(** [POST /send-alert].  [delivered] tells whether [client.sendMessage]
    resolves.  A [to] that is truthy but not a string has no [replace]
    method: the call throws inside the [try] and lands in the [catch]. *)
Definition send_alert (request_body : Json) (delivered : bool)
    : list BotEffect * HttpResponse :=
  let message := property request_body "message" in
  let to := property request_body "to" in
  if negb (truthy message) || negb (truthy to) then
    ([], mkResponse 400
           (JObj [("success", JBool false);
                  ("error", JStr "Message and recipient number are required.")]))
  else
    match to with
    | Some (JStr to) =>
        let sanitizedTo := digits to in
        let chatId := sanitizedTo +:+ "@c.us" in
        ([SendMessage chatId (default JNull message)],
         if delivered then
           mkResponse 200
             (JObj [("success", JBool true); ("message", JStr "Alert sent successfully.")])
         else
           mkResponse 500
             (JObj [("success", JBool false); ("error", JStr "Failed to send alert.")]))
    | _ =>
        ([], mkResponse 500
               (JObj [("success", JBool false); ("error", JStr "Failed to send alert.")]))
    end.

End WhatsappBot.


(** ** pages/Logs.tsx *)

Module Logs.

(** [LogResponse] of types/index.ts. *)
Record LogResponse := mkLog {
  content : string;
  filename : option string
}.

Record State := mkState {
  logContent : string;
  isLoading : bool;
  mounted : bool;
  (* log requests in flight *)
  inflight : nat;
  trace : list Effect
}.

Definition init : State := mkState "No logs yet" false false 0%nat [].

(** [loadLogs], up to its [await getLatestLog()]. *)
Definition loadLogs (s : State) : State :=
  mkState (logContent s) true (mounted s) (S (inflight s))
          (trace s ++ [Sent ApiRead.getLatestLog])%list.

(** [loadLogs], from its [await] on; [None] is a rejected request. *)
Definition loadLogs_settled (r : option LogResponse) (s : State) : State :=
  match r with
  | Some response =>
      mkState (str_or (content response) "No logs found") false (mounted s)
              (pred (inflight s)) (trace s)
  | None =>
      mkState "Error loading log." false (mounted s) (pred (inflight s))
              (trace s ++ [Toast "Could not fetch logs from server." warning])%list
  end.

Inductive Event :=
| Mount
| ClickRefresh
| Settle (r : option LogResponse).

(** One turn of the event loop.  The mount effect loads the log once; the
    Refresh button is disabled while [isLoading]; a settlement needs a
    request in flight. *)
Definition step (e : Event) (s : State) : option State :=
  match e with
  | Mount =>
      if mounted s then None
      else Some (loadLogs (mkState (logContent s) (isLoading s) true (inflight s) (trace s)))
  | ClickRefresh =>
      if mounted s && negb (isLoading s) then Some (loadLogs s) else None
  | Settle r =>
      match inflight s with
      | O => None
      | S _ => Some (loadLogs_settled r s)
      end
  end.

Fixpoint run (es : list Event) (s : State) : option State :=
  match es with
  | [] => Some s
  | e :: es' =>
      match step e s with
      | Some s' => run es' s'
      | None => None
      end
  end.

Definition reachable (s : State) : Prop := ∃ es, run es init = Some s.

End Logs.

(** ** pages/Enroll.tsx, the version with steps and previews *)

Module EnrollWizard.

(** A [File]: its name and its MIME type. *)
Record File := mkFile {
  file_name : string;
  file_type : string
}.

(** [PreviewImage]: the object URL is known by the number the window gave
    it. *)
Record PreviewImage := mkPreview {
  file : File;
  preview : nat
}.

Record State := mkState {
  name : string;
  info_ : string;
  images : list PreviewImage;
  isSubmitting : bool;
  isDragging : bool;
  currentStep : Z;
  (* the window: the object URLs created and not revoked, and the next one *)
  objectURLs : gset nat;
  next_url : nat;
  (* a submit in flight, with the [images] its closure holds *)
  submitted : option (list PreviewImage);
  (* [navigate] was called: the page is left *)
  left_page : bool;
  trace : list Effect
}.

Definition init : State := mkState "" "" [] false false 1 ∅ 0%nat None false [].

Definition setName (v : string) (s : State) : State :=
  mkState v (info_ s) (images s) (isSubmitting s) (isDragging s) (currentStep s)
          (objectURLs s) (next_url s) (submitted s) (left_page s) (trace s).

Definition setInfo (v : string) (s : State) : State :=
  mkState (name s) v (images s) (isSubmitting s) (isDragging s) (currentStep s)
          (objectURLs s) (next_url s) (submitted s) (left_page s) (trace s).

Definition setImages (v : list PreviewImage) (s : State) : State :=
  mkState (name s) (info_ s) v (isSubmitting s) (isDragging s) (currentStep s)
          (objectURLs s) (next_url s) (submitted s) (left_page s) (trace s).

Definition setIsSubmitting (v : bool) (s : State) : State :=
  mkState (name s) (info_ s) (images s) v (isDragging s) (currentStep s)
          (objectURLs s) (next_url s) (submitted s) (left_page s) (trace s).

Definition setIsDragging (v : bool) (s : State) : State :=
  mkState (name s) (info_ s) (images s) (isSubmitting s) v (currentStep s)
          (objectURLs s) (next_url s) (submitted s) (left_page s) (trace s).

Definition setCurrentStep (v : Z) (s : State) : State :=
  mkState (name s) (info_ s) (images s) (isSubmitting s) (isDragging s) v
          (objectURLs s) (next_url s) (submitted s) (left_page s) (trace s).

Definition set_submitted (v : option (list PreviewImage)) (s : State) : State :=
  mkState (name s) (info_ s) (images s) (isSubmitting s) (isDragging s) (currentStep s)
          (objectURLs s) (next_url s) v (left_page s) (trace s).

Definition emit (e : Effect) (s : State) : State :=
  mkState (name s) (info_ s) (images s) (isSubmitting s) (isDragging s) (currentStep s)
          (objectURLs s) (next_url s) (submitted s) (left_page s) (trace s ++ [e])%list.

Definition showToast (message : string) (kind : ToastKind) : State → State :=
  emit (Toast message kind).

(** [navigate(path)]: the router leaves the page. *)
Definition navigate_to (path : string) (s : State) : State :=
  mkState (name s) (info_ s) (images s) (isSubmitting s) (isDragging s) (currentStep s)
          (objectURLs s) (next_url s) (submitted s) true
          (trace s ++ [Called (navigate path)])%list.

(** [URL.createObjectURL(file)]: a new object URL. *)
Definition createObjectURL (s : State) : nat * State :=
  (next_url s,
   mkState (name s) (info_ s) (images s) (isSubmitting s) (isDragging s) (currentStep s)
           ({[ next_url s ]} ∪ objectURLs s) (S (next_url s)) (submitted s) (left_page s)
           (trace s)).

(** [URL.revokeObjectURL(url)]: a URL that is not registered is ignored. *)
Definition revokeObjectURL (url : nat) (s : State) : State :=
  mkState (name s) (info_ s) (images s) (isSubmitting s) (isDragging s) (currentStep s)
          (objectURLs s ∖ {[ url ]}) (next_url s) (submitted s) (left_page s) (trace s).

(** [file.type.startsWith('image/')] *)
Definition is_image (f : File) : bool := String.prefix "image/" (file_type f).

(** The [forEach] of [handleFiles]: a preview for every image file, in
    order; the other files are skipped. *)
Fixpoint collect (files : list File) (s : State) : list PreviewImage * State :=
  match files with
  | [] => ([], s)
  | f :: rest =>
      if is_image f then
        let '(url, s) := createObjectURL s in
        let '(newImages, s) := collect rest s in
        (mkPreview f url :: newImages, s)
      else collect rest s
  end.

(** [handleFiles]: [None] is a [null] file list. *)
Definition handleFiles (files : option (list File)) (s : State) : State :=
  match files with
  | None => s
  | Some fs =>
      let '(newImages, s) := collect fs s in
      setImages (images s ++ newImages) s
  end.

Definition handleDragOver (s : State) : State := setIsDragging true s.
Definition handleDragLeave (s : State) : State := setIsDragging false s.

Definition handleDrop (files : list File) (s : State) : State :=
  handleFiles (Some files) (setIsDragging false s).

(** [removeImage(index)]: [newImages[index].preview] throws when the index
    is out of range ([None]). *)
Definition removeImage (index : nat) (s : State) : option State :=
  match images s !! index with
  | Some img => Some (setImages (delete index (images s)) (revokeObjectURL (preview img) s))
  | None => None
  end.

(** The handler of the "Clear all" button. *)
Definition clearAll (s : State) : State :=
  setImages [] (foldl (λ s img, revokeObjectURL (preview img) s) s (images s)).

Definition canProceedToStep2 (s : State) : bool :=
  match Enroll.trim (name s) with
  | EmptyString => false
  | _ => true
  end.

Definition canProceedToStep3 (s : State) : bool :=
  match images s with
  | [] => false
  | _ => true
  end.

(** [handleSubmit], up to its [await]. *)
Definition handleSubmit (s : State) : State :=
  if negb (canProceedToStep2 s) then
    setCurrentStep 1 (showToast "Please enter a name" warning s)
  else if negb (canProceedToStep3 s) then
    setCurrentStep 2 (showToast "Please add at least one image" warning s)
  else
    let s := setIsSubmitting true s in
    let files := (file_name ∘ file) <$> images s in
    set_submitted (Some (images s))
      (emit (Sent (Api.enrollPerson (Enroll.trim (name s)) (info_ s) files None)) s).

(** [handleSubmit], from its [await] on, with the [images] of its closure;
    [None] is a rejected request. *)
Definition handleSubmit_settled (r : option ApiResponse.t) (s : State) : State :=
  let closure := default [] (submitted s) in
  let s :=
    match r with
    | Some response =>
        if ApiResponse.success response then
          let s := showToast (opt_str_or (ApiResponse.message response)
                                         "Person enrolled successfully!") success s in
          let s := if truthy_flag (ApiResponse.rebuild_started response)
                   then showToast "Database is syncing..." info s
                   else s in
          let s := foldl (λ s img, revokeObjectURL (preview img) s) s closure in
          navigate_to "/identities" s
        else
          showToast (opt_str_or (ApiResponse.error response) "Enrollment failed") error s
    | None => showToast "Failed to enroll person" error s
    end in
  set_submitted None (setIsSubmitting false s).

Inductive Event :=
| TypeName (v : string)
| TypeInfo (v : string)
| PickFiles (files : option (list File))
| DragOver
| DragLeave
| Drop (files : list File)
| Remove (index : nat)
| ClearAll
| ContinueToImages
| BackToInfo
| ContinueToReview
| BackToImages
| Submit
| Settle (r : option ApiResponse.t).

(** One turn of the event loop on the page; [None] when the event cannot
    happen: the page was left, a Continue button is disabled, the Remove
    and Clear buttons are only there for images that are, the submit button
    is disabled while submitting, and only a submit in flight settles.
    Which step is shown does not restrict the buttons here: all three steps
    are in the document at all times. *)
Definition step (e : Event) (s : State) : option State :=
  match e with
  | Settle r =>
      match submitted s with
      | Some _ => Some (handleSubmit_settled r s)
      | None => None
      end
  | _ =>
      if left_page s then None
      else
        match e with
        | TypeName v => Some (setName v s)
        | TypeInfo v => Some (setInfo v s)
        | PickFiles files => Some (handleFiles files s)
        | DragOver => Some (handleDragOver s)
        | DragLeave => Some (handleDragLeave s)
        | Drop files => Some (handleDrop files s)
        | Remove index => removeImage index s
        | ClearAll => if canProceedToStep3 s then Some (clearAll s) else None
        | ContinueToImages =>
            if canProceedToStep2 s then Some (setCurrentStep 2 s) else None
        | BackToInfo => Some (setCurrentStep 1 s)
        | ContinueToReview =>
            if canProceedToStep3 s then Some (setCurrentStep 3 s) else None
        | BackToImages => Some (setCurrentStep 2 s)
        | Submit => if isSubmitting s then None else Some (handleSubmit s)
        | Settle _ => None
        end
  end.

Fixpoint run (es : list Event) (s : State) : option State :=
  match es with
  | [] => Some s
  | e :: es' =>
      match step e s with
      | Some s' => run es' s'
      | None => None
      end
  end.

Definition reachable (s : State) : Prop := ∃ es, run es init = Some s.

End EnrollWizard.


(** * Properties *)

(** ** The poll timer of the Dashboard *)

Section DashboardTimers.
Import Dashboard.

(** The timer discipline of the page: every registered interval timer is
    the one [pollIntervalRef] holds, at 1000 ms; handles are positive and
    below the next one the window hands out; and while the page has not
    been torn down the handle in the ref names a registered timer. *)
Record timers_ok (s : State) : Prop := TimersOk {
  next_handle_pos : 0 < next_handle s;
  ref_in_range : ∀ h, pollIntervalRef s = Some h → 0 < h < next_handle s;
  timer_is_ref : ∀ h d, intervals s !! h = Some d → pollIntervalRef s = Some h ∧ d = 1000;
  ref_is_timer : lifecycle s ≠ Unmounted →
                 ∀ h, pollIntervalRef s = Some h → intervals s !! h = Some 1000
}.

(** A function of the page that leaves the ref, the timers and the
    lifecycle alone. *)
Definition same_timers (s s' : State) : Prop :=
  pollIntervalRef s' = pollIntervalRef s ∧ intervals s' = intervals s
  ∧ next_handle s' = next_handle s ∧ lifecycle s' = lifecycle s.

(** The page is polling: one timer, at one second, held by the ref. *)
Definition polling (s : State) : Prop :=
  ∃ h, pollIntervalRef s = Some h ∧ intervals s = {[ h := 1000 ]}.

(** A poll is under way: a status query is in flight, or the reload a
    poll started on seeing the job finished. *)
Definition is_poll (k : Awaiting) : bool :=
  match k with
  | AwaitStatus | AwaitStats (ThenPoll _) => true
  | _ => false
  end.

Definition no_poll_in_flight (s : State) : Prop :=
  ∀ rid k, inflight s !! rid = Some k → is_poll k = false.

(** The outcomes a stats request can have. *)
Definition stats_outcome (o : Outcome) : bool :=
  match o with
  | Rejected | StatsOk _ => true
  | _ => false
  end.

(** The toast [loadStats] shows when its request fails. *)
Definition load_failure_toasts (o : Outcome) : list (string * ToastKind) :=
  match o with
  | Rejected => [("Failed to load dashboard data", error)]
  | _ => []
  end.


End DashboardTimers.

(** The informational toasts among a list of toasts. *)
Definition info_toasts (l : list (string * ToastKind)) : list (string * ToastKind) :=
  List.filter (fun t => match t.2 with info => true | _ => false end) l.

(** The toast the CRUD handlers show for a rebuild the backend started. *)
Definition rebuild_started_toasts (response : ApiResponse.t) : list (string * ToastKind) :=
  if ApiResponse.success response && truthy_flag (ApiResponse.rebuild_started response)
  then [("Database rebuild started automatically...", info)]
  else [].

(** The wire form of the optional fields: an absent field has no member. *)
Definition opt_member {A} (name : string) (f : A → Json) (o : option A)
    : list (string * Json) :=
  match o with
  | Some v => [(name, f v)]
  | None => []
  end.

Definition ApiResponse_members (r : ApiResponse.t) : list (string * Json) :=
  ([("success", JBool (ApiResponse.success r))]
   ++ opt_member "message" JStr (ApiResponse.message r)
   ++ opt_member "error" JStr (ApiResponse.error r)
   ++ opt_member "rebuild_started" JBool (ApiResponse.rebuild_started r)
   ++ opt_member "rebuild_message" JStr (ApiResponse.rebuild_message r))%list.

Definition RebuildDbResponse_to_json (r : RebuildDbResponse.t) : Json :=
  JObj (ApiResponse_members (RebuildDbResponse.base r)
        ++ opt_member "status" RebuildStatus_to_json (RebuildDbResponse.status r))%list.

(** The discipline of the job record: the running flag is set exactly in
    the two working phases, a running job carries no error, a completed
    one is at 100 without error, a failed one names its error. *)
Record job_ok (j : Backend.RebuildJob) : Prop := JobOk {
  running_phase :
    Backend.is_running j = true ↔
    (Backend.status j = Rebuilding ∨ Backend.status j = Reloading);
  running_no_error : Backend.is_running j = true → Backend.last_error j = None;
  completed_clean :
    Backend.status j = Completed → Backend.last_error j = None ∧ Backend.progress j = 100;
  failed_has_error : Backend.status j = Failed → is_Some (Backend.last_error j)
}.

(** ** Sample values *)

Definition sample_running : RebuildStatus.t :=
  RebuildStatus.mk true 40 Rebuilding "Encoding faces" (Some "10:00:00") None None
                   (Some ByManual).

Definition sample_completed : RebuildStatus.t :=
  RebuildStatus.mk false 100 Completed "Rebuilt" (Some "10:00:00") (Some "10:00:09")
                   None (Some ByManual).

Definition sample_idle : RebuildStatus.t :=
  RebuildStatus.mk false 0 Idle "" None None None None.

Definition sample_stats (r : RebuildStatus.t) : StatsResponse.t :=
  StatsResponse.mk 3 7 (DatabaseInfo.mk true 4096 None) r.

(** The page after its initial load found the job running: polling, with
    nothing in flight. *)
Definition sample_polling : Dashboard.State :=
  Eval vm_compute in
  default Dashboard.init
    (Dashboard.run [Dashboard.Mount;
                    Dashboard.Settle 0 (Dashboard.StatsOk (sample_stats sample_running))]
                   Dashboard.init).

(** The same page with one status query in flight. *)
Definition sample_querying : Dashboard.State :=
  Eval vm_compute in
  default Dashboard.init (Dashboard.run [Dashboard.Tick 1] sample_polling).

(** The page after a click on the rebuild button, the request in flight. *)
Definition sample_triggering : Dashboard.State :=
  Eval vm_compute in
  default Dashboard.init
    (Dashboard.run [Dashboard.Mount;
                    Dashboard.Settle 0 (Dashboard.StatsOk (sample_stats sample_idle));
                    Dashboard.ClickRebuild]
                   Dashboard.init).

(** The enrolment form, filled in. *)
Definition sample_enroll : Enroll.State :=
  Enroll.mkState "  Ada Lovelace " "mathematician" (Some ["ada-1.jpg"; "ada-2.jpg"])
                 false [].

(** A response that reports a failure and a started rebuild at once. *)
Definition sample_failure : ApiResponse.t :=
  ApiResponse.mk false None (Some "Storage is read-only") (Some true) None.

(** A job record in the middle of a rebuild. *)
Definition sample_job : Backend.RebuildJob :=
  Eval vm_compute in
  default Backend.idle
    (Backend.run [Backend.Trigger "10:00:00" ByManual;
                  Backend.Runner (Backend.Advance 40 "Encoding faces")]
                 Backend.idle).

(** A job record after a rebuild that went through. *)
Definition sample_done : Backend.RebuildJob :=
  Eval vm_compute in
  default Backend.idle
    (Backend.run [Backend.Trigger "10:00:00" ByManual;
                  Backend.Runner (Backend.Advance 40 "Encoding faces");
                  Backend.Runner (Backend.Reload "Reloading the index");
                  Backend.Runner (Backend.Succeed "10:00:09")]
                 Backend.idle).

(** ** Further vocabulary *)

(** The events that start the polling: a trigger request that settles with
    success, and the initial load when it settles with a record that says
    the job is running. *)
Definition starts_polling (e : Dashboard.Event) (s : Dashboard.State) : Prop :=
  match e with
  | Dashboard.Settle rid (Dashboard.RebuildOk response) =>
      Dashboard.inflight s !! rid = Some Dashboard.AwaitRebuild
      ∧ ApiResponse.success (RebuildDbResponse.base response) = true
  | Dashboard.Settle rid (Dashboard.StatsOk data) =>
      Dashboard.inflight s !! rid = Some (Dashboard.AwaitStats Dashboard.ThenEffect)
      ∧ RebuildStatus.is_rebuilding (StatsResponse.rebuild_status data) = true
  | _ => False
  end.

(** The events that stop it: the teardown, and the settlement of the
    reload a finished poll started. *)
Definition stops_polling (e : Dashboard.Event) (s : Dashboard.State) : Prop :=
  match e with
  | Dashboard.Unmount => True
  | Dashboard.Settle rid _ =>
      ∃ status,
        Dashboard.inflight s !! rid
        = Some (Dashboard.AwaitStats (Dashboard.ThenPoll status))
  | _ => False
  end.

(** The suspended functions that call [startPolling] when they resume:
    the [.then] of the mount effect and [handleRebuild]. *)
Definition starts_timer (k : Dashboard.Awaiting) : bool :=
  match k with
  | Dashboard.AwaitStats Dashboard.ThenEffect | Dashboard.AwaitRebuild => true
  | _ => false
  end.

(** Neither the initial load nor a trigger request is in flight. *)
Definition no_starter_in_flight (s : Dashboard.State) : Prop :=
  map_Forall (λ _ k, starts_timer k = false) (Dashboard.inflight s).

(** Every character of a string passes a test. *)
Fixpoint all_chars (test : Ascii.ascii → bool) (s : string) : bool :=
  match s with
  | EmptyString => true
  | String a rest => test a && all_chars test rest
  end.

(** The characters an encoded URI component is made of: the unreserved
    ones (the hexadecimal digits are among them) and the percent sign. *)
Definition component_char (a : Ascii.ascii) : bool :=
  ApiRead.unreserved a || (Ascii.nat_of_ascii a =? 37)%nat.

(** The value of an upper-case hexadecimal digit. *)
Definition hex_value (a : Ascii.ascii) : nat :=
  let n := Ascii.nat_of_ascii a in
  if (n <? 58)%nat then (n - 48)%nat else (n - 55)%nat.

(** The byte an escape [%XX] stands for. *)
Definition unescape (hi lo : Ascii.ascii) : Ascii.ascii :=
  Ascii.ascii_of_nat (16 * hex_value hi + hex_value lo).

(** The toasts of a list that are not informational. *)
Definition outcome_toasts (l : list (string * ToastKind)) : list (string * ToastKind) :=
  List.filter (fun t => match t.2 with info => false | _ => true end) l.

(** The kind of toast that acknowledges a settled operation. *)
Definition outcome_kind (r : option ApiResponse.t) : ToastKind :=
  match r with
  | Some response => if ApiResponse.success response then success else error
  | None => error
  end.

(** The discipline of the previews: while the page is not left, the object
    URLs the window holds are exactly the previews of the images listed,
    each image has a preview of its own, and every preview is a URL the
    window has already given out. *)
Record previews_ok (s : EnrollWizard.State) : Prop := PreviewsOk {
  urls_are_previews :
    EnrollWizard.objectURLs s
    = list_to_set (EnrollWizard.preview <$> EnrollWizard.images s);
  previews_distinct : NoDup (EnrollWizard.preview <$> EnrollWizard.images s);
  previews_known :
    ∀ u, u ∈ EnrollWizard.preview <$> EnrollWizard.images s →
         (u < EnrollWizard.next_url s)%nat
}.


(** The requests of a trace, in order. *)
Definition requests (t : list Effect) : list Api.Request :=
  omap (fun e => match e with Sent r => Some r | _ => None end) t.

(** [w] is at the end of [s]. *)
Fixpoint ends_with (w s : string) : bool :=
  String.eqb w s
  || match s with
     | EmptyString => false
     | String _ rest => ends_with w rest
     end.

(** A string starts, or ends, with white space: with the bytes of one of
    the code points [trim] strips. *)
Definition starts_with_space (n : string) : bool :=
  existsb (fun c => String.prefix (Enroll.utf8 c) n) Enroll.white_space.

Definition ends_with_space (n : string) : bool :=
  existsb (fun c => ends_with (Enroll.utf8 c) n) Enroll.white_space.

(** A name that is not empty and neither starts nor ends with white
    space. *)
Definition well_named (n : string) : bool :=
  negb (String.eqb n "") && negb (starts_with_space n) && negb (ends_with_space n).

(** The length of each white-space code point in bytes, and that no
    shorter start of it is a code point of its own. *)
Definition space_shape (w : string) : bool :=
  match w with
  | String a EmptyString => Enroll.is_space w
  | String a (String b EmptyString) =>
      negb (Enroll.is_space (String a EmptyString)) && Enroll.is_space w
  | String a (String b (String c EmptyString)) =>
      negb (Enroll.is_space (String a EmptyString))
      && negb (Enroll.is_space (String a (String b EmptyString)))
      && Enroll.is_space w
  | _ => false
  end.

(** An enrolment request as the pages mean to send it: a proper name, at
    least one file, and the automatic rebuild left to its default. *)
Definition enrol_request_ok (r : Api.Request) : Prop :=
  ∃ n i fs, r = Api.enrollPerson n i fs None ∧ well_named n = true ∧ fs ≠ [].

(** A settled operation is acknowledged in a trace [t'] that extends [t]:
    one toast that is not informational was added, of the kind the outcome
    calls for, and it says something. *)
Definition acknowledged (r : option ApiResponse.t) (t t' : list Effect) : Prop :=
  ∃ m, m ≠ ""
       ∧ outcome_toasts (toasts t')
         = (outcome_toasts (toasts t) ++ [(m, outcome_kind r)])%list.

(** ** Further sample values *)

Definition sample_toasts : App.State :=
  App.showToast 1700000000500 "Database rebuild started automatically..." info
    (App.showToast 1700000000000 "Person enrolled successfully" success App.init).

Definition sample_photo : EnrollWizard.File := EnrollWizard.mkFile "ada-1.jpg" "image/jpeg".
Definition sample_scan : EnrollWizard.File := EnrollWizard.mkFile "record.pdf" "application/pdf".

(** The wizard with a name typed and three files dropped, one of them not
    an image. *)
Definition sample_wizard : EnrollWizard.State :=
  Eval vm_compute in
  default EnrollWizard.init
    (EnrollWizard.run
       [EnrollWizard.TypeName " Ada Lovelace";
        EnrollWizard.ContinueToImages;
        EnrollWizard.Drop [sample_photo; sample_scan; sample_photo]]
       EnrollWizard.init).


(** The wizard of [sample_wizard] with the images reviewed and the form
    submitted. *)
Definition sample_submitted : EnrollWizard.State :=
  Eval vm_compute in
  default EnrollWizard.init
    (EnrollWizard.run
       [EnrollWizard.ContinueToReview; EnrollWizard.Submit] sample_wizard).

(** The dashboard torn down before its initial load has settled. *)
Definition sample_torn_down : Dashboard.State :=
  Eval vm_compute in
  default Dashboard.init
    (Dashboard.run [Dashboard.Mount; Dashboard.Unmount] Dashboard.init).

Section DashboardTimerFacts.
Import Dashboard.

Lemma same_timers_refl s : same_timers s s.
Proof. by repeat split. Qed.

Lemma same_timers_trans s1 s2 s3 :
  same_timers s1 s2 → same_timers s2 s3 → same_timers s1 s3.
Proof.
  intros (a & b & c & d) (a' & b' & c' & d').
  repeat split; congruence.
Qed.

Lemma same_timers_ok s s' : same_timers s s' → timers_ok s → timers_ok s'.
Proof.
  intros (Href & Hint & Hnext & Hlife) [Hpos Hrange Htimer Hreg].
  split; rewrite ?Href, ?Hint, ?Hnext, ?Hlife; assumption.
Qed.

Lemma init_timers_ok : timers_ok init.
Proof.
  split; simpl; try done.
Qed.

(** Under the discipline a falsy ref is [null]: the handle [0] never
    occurs. *)
Lemma falsy_ref_is_null s :
  timers_ok s → truthy_handle (pollIntervalRef s) = false → pollIntervalRef s = None.
Proof.
  intros Hok Hfalsy. destruct (pollIntervalRef s) as [h|] eqn:Href; [|done].
  apply (ref_in_range s Hok) in Href. simpl in Hfalsy.
  apply negb_false_iff, Z.eqb_eq in Hfalsy. lia.
Qed.

Lemma truthy_ref_is_handle s :
  truthy_handle (pollIntervalRef s) = true → ∃ h, pollIntervalRef s = Some h.
Proof. destruct (pollIntervalRef s); [eauto | discriminate]. Qed.

Lemma in_range_ref_truthy s h :
  timers_ok s → pollIntervalRef s = Some h → truthy_handle (pollIntervalRef s) = true.
Proof.
  intros Hok Href. pose proof (ref_in_range s Hok h Href) as Hr.
  rewrite Href. simpl. apply negb_true_iff, Z.eqb_neq. lia.
Qed.

(** With a [null] ref no timer is registered. *)
Lemma null_ref_no_timer s :
  timers_ok s → pollIntervalRef s = None → intervals s = ∅.
Proof.
  intros Hok Href. apply map_empty. intros h.
  destruct (intervals s !! h) as [d|] eqn:Hh; [|done].
  apply (timer_is_ref s Hok) in Hh as [Hh _]. congruence.
Qed.

(** Removing the timer of the ref removes every timer. *)
Lemma delete_ref_timer s h :
  timers_ok s → pollIntervalRef s = Some h → delete h (intervals s) = ∅.
Proof.
  intros Hok Href. apply map_empty. intros k.
  destruct (decide (k = h)) as [->|Hne].
  - apply lookup_delete_eq.
  - rewrite lookup_delete_ne by done.
    destruct (intervals s !! k) as [d|] eqn:Hk; [|done].
    apply (timer_is_ref s Hok) in Hk as [Hk _]. congruence.
Qed.

(** While the page stands, a handle in the ref means it is polling. *)
Lemma ref_polling s h :
  timers_ok s → lifecycle s ≠ Unmounted → pollIntervalRef s = Some h → polling s.
Proof.
  intros Hok Hlife Href. exists h. split; [done|].
  apply map_eq. intros k. destruct (decide (k = h)) as [->|Hne].
  - rewrite lookup_singleton_eq. by apply (ref_is_timer s Hok).
  - rewrite lookup_singleton_ne by done.
    destruct (intervals s !! k) as [d|] eqn:Hk; [|done].
    apply (timer_is_ref s Hok) in Hk as [Hk _]. congruence.
Qed.

(** At most one timer is registered. *)
Lemma timers_ok_size s : timers_ok s → (size (intervals s) ≤ 1)%nat.
Proof.
  intros Hok. destruct (pollIntervalRef s) as [h|] eqn:Href.
  - destruct (intervals s !! h) as [d|] eqn:Hh.
    + assert (intervals s = {[ h := d ]}) as ->.
      { apply map_eq. intros k. destruct (decide (k = h)) as [->|Hne].
        - by rewrite lookup_singleton_eq.
        - rewrite lookup_singleton_ne by done.
          destruct (intervals s !! k) as [d'|] eqn:Hk; [|done].
          apply (timer_is_ref s Hok) in Hk as [Hk _]. congruence. }
      by rewrite map_size_singleton.
    + assert (intervals s = ∅) as ->.
      { rewrite <- (delete_ref_timer s h Hok Href). symmetry. by apply delete_id. }
      rewrite map_size_empty. lia.
  - rewrite (null_ref_no_timer s Hok Href), map_size_empty. lia.
Qed.

(** A registered timer makes the ref truthy. *)
Lemma timer_ref_truthy s :
  timers_ok s → intervals s ≠ ∅ → truthy_handle (pollIntervalRef s) = true.
Proof.
  intros Hok Hne. destruct (truthy_handle (pollIntervalRef s)) eqn:Ht; [done|].
  exfalso. apply Hne, null_ref_no_timer; [done|]. by apply falsy_ref_is_null.
Qed.

Lemma showToast_same m k s : same_timers s (showToast m k s).
Proof. by repeat split. Qed.

Lemma send_same r k s : same_timers s (send r k s).
Proof. by repeat split. Qed.

Lemma settled_same rid s : same_timers s (settled rid s).
Proof. by repeat split. Qed.

Lemma loadStats_settled_same data s : same_timers s (loadStats_settled data s).2.
Proof. destruct data; by repeat split. Qed.

Lemma pollRebuildStatus_settled_same r s : same_timers s (pollRebuildStatus_settled r s).
Proof.
  destruct r as [status|]; simpl; [|apply same_timers_refl].
  destruct (finished status); by repeat split.
Qed.

Lemma handleRebuild_same s : same_timers s (handleRebuild s).
Proof. unfold handleRebuild. destruct (is_rebuilding _); by repeat split. Qed.

Lemma startPolling_ok s : timers_ok s → timers_ok (startPolling s).
Proof.
  intros Hok. unfold startPolling.
  destruct (truthy_handle (pollIntervalRef s)) eqn:Ht; [done|].
  pose proof (falsy_ref_is_null s Hok Ht) as Href.
  pose proof (null_ref_no_timer s Hok Href) as Hint.
  pose proof (next_handle_pos s Hok) as Hpos.
  split; simpl.
  - lia.
  - intros h [= <-]. lia.
  - intros h d. rewrite Hint. intros Hh.
    apply lookup_insert_Some in Hh as [[<- <-]|[_ Hh]]; [done|].
    by rewrite lookup_empty in Hh.
  - intros _ h [= <-]. apply lookup_insert_eq.
Qed.

Lemma pollRebuildStatus_refreshed_ok status s :
  timers_ok s → timers_ok (pollRebuildStatus_refreshed status s).
Proof.
  intros Hok. unfold pollRebuildStatus_refreshed.
  set (s1 := if truthy_handle (pollIntervalRef s) then _ else s).
  assert (timers_ok s1) as Hok1.
  { subst s1. destruct (truthy_handle (pollIntervalRef s)) eqn:Ht; [|done].
    destruct (truthy_ref_is_handle s Ht) as [h Href].
    pose proof (delete_ref_timer s h Hok Href) as Hdel.
    rewrite Href. simpl. split; simpl.
    - apply Hok.
    - done.
    - intros k d. rewrite Hdel. by rewrite lookup_empty.
    - done. }
  destruct (RebuildStatus.status status);
    try done; eapply same_timers_ok; eauto using showToast_same.
Qed.

Lemma cleanup_unmounted_ok s :
  timers_ok s → timers_ok (cleanup (set_lifecycle Unmounted s)).
Proof.
  intros Hok. unfold cleanup. simpl.
  destruct (truthy_handle (pollIntervalRef s)) eqn:Ht.
  - destruct (truthy_ref_is_handle s Ht) as [h Href].
    pose proof (delete_ref_timer s h Hok Href) as Hdel.
    rewrite Href. simpl. split; simpl.
    + apply Hok.
    + apply Hok.
    + intros k d. rewrite Hdel. by rewrite lookup_empty.
    + done.
  - split; simpl; try apply Hok. done.
Qed.

Lemma after_load_ok k r :
  timers_ok r.2 → timers_ok (after_load k r).
Proof.
  intros Hok. destruct k as [|status|]; simpl; [|by apply pollRebuildStatus_refreshed_ok|done].
  unfold effect_then. destruct (is_rebuilding r.1); [by apply startPolling_ok|done].
Qed.

Lemma handleRebuild_settled_ok r s :
  timers_ok s → timers_ok (handleRebuild_settled r s).
Proof.
  intros Hok. destruct r as [response|]; simpl.
  - destruct (ApiResponse.success _).
    + apply startPolling_ok. eapply same_timers_ok; eauto using showToast_same.
    + eapply same_timers_ok; eauto using showToast_same.
  - eapply same_timers_ok; eauto using showToast_same.
Qed.

Lemma resume_ok k o s s' :
  resume k o s = Some s' → timers_ok s → timers_ok s'.
Proof.
  intros Hres Hok.
  destruct k as [k'| |], o as [|data|status|response]; simpl in Hres;
    simplify_eq.
  - apply (after_load_ok k' (loadStats_settled None s)).
    eapply same_timers_ok; [apply (loadStats_settled_same None)|done].
  - apply (after_load_ok k' (loadStats_settled (Some data) s)).
    eapply same_timers_ok; [apply (loadStats_settled_same (Some data))|done].
  - done.
  - eapply same_timers_ok; [apply (pollRebuildStatus_settled_same (Some status))|done].
  - by apply (handleRebuild_settled_ok None).
  - by apply (handleRebuild_settled_ok (Some response)).
Qed.

(** The discipline holds across every turn of the event loop. *)
Lemma step_timers_ok e s s' : step e s = Some s' → timers_ok s → timers_ok s'.
Proof.
  intros Hstep Hok. destruct e as [| |h| | |rid o]; simpl in Hstep.
  - destruct (lifecycle s) eqn:Hlife; simplify_eq.
    destruct Hok as [Hpos Hrange Htimer Hreg]. split; simpl; auto.
    intros _. apply Hreg. by rewrite Hlife.
  - destruct (lifecycle s); simplify_eq. by apply cleanup_unmounted_ok.
  - destruct (intervals s !! h); simplify_eq.
    eapply same_timers_ok; [apply send_same|done].
  - destruct (buttons_shown s); simplify_eq.
    eapply same_timers_ok; [apply handleRebuild_same|done].
  - destruct (buttons_shown s); simplify_eq.
    eapply same_timers_ok; [apply send_same|done].
  - destruct (inflight s !! rid) as [k|]; simplify_eq.
    eapply resume_ok; [done|].
    eapply same_timers_ok; [apply settled_same|done].
Qed.

Lemma run_timers_ok es s s' : run es s = Some s' → timers_ok s → timers_ok s'.
Proof.
  revert s. induction es as [|e es IH]; intros s Hrun Hok; simpl in Hrun.
  - by simplify_eq.
  - destruct (step e s) as [s1|] eqn:Hstep; [|done].
    eauto using step_timers_ok.
Qed.

Lemma reachable_timers_ok s : reachable s → timers_ok s.
Proof. intros [es Hrun]. eapply run_timers_ok; [done|apply init_timers_ok]. Qed.

End DashboardTimerFacts.

Section DashboardBehaviour.
Import Dashboard.

Lemma startPolling_truthy s :
  truthy_handle (pollIntervalRef s) = true → startPolling s = s.
Proof. intros Ht. unfold startPolling. by rewrite Ht. Qed.

Lemma startPolling_sets_ref s :
  timers_ok s → truthy_handle (pollIntervalRef (startPolling s)) = true.
Proof.
  intros Hok. unfold startPolling.
  destruct (truthy_handle (pollIntervalRef s)) eqn:Ht; [done|].
  simpl. pose proof (next_handle_pos s Hok).
  apply negb_true_iff, Z.eqb_neq. lia.
Qed.

(** While the page stands, [startPolling] leaves it polling. *)
Lemma startPolling_polling s :
  timers_ok s → lifecycle s ≠ Unmounted → polling (startPolling s).
Proof.
  intros Hok Hlife.
  pose proof (startPolling_ok s Hok) as Hok'.
  pose proof (startPolling_sets_ref s Hok) as Ht.
  destruct (truthy_ref_is_handle _ Ht) as [h Href].
  apply (ref_polling _ h Hok'); [|done].
  unfold startPolling. destruct (truthy_handle (pollIntervalRef s)); done.
Qed.

Lemma tick_none_without_timer s h : intervals s = ∅ → step (Tick h) s = None.
Proof. intros Hint. simpl. by rewrite Hint, lookup_empty. Qed.

(** C9. [startPolling] is idempotent: in every state the page can reach,
    calling it while a poll timer is registered changes nothing, calling it
    twice is calling it once, and at most one interval timer is registered,
    before and after the call. *)
Theorem startPolling_idempotent s :
  reachable s →
  (intervals s ≠ ∅ → startPolling s = s)
  ∧ startPolling (startPolling s) = startPolling s
  ∧ (size (intervals s) ≤ 1)%nat
  ∧ (size (intervals (startPolling s)) ≤ 1)%nat.
Proof.
  intros Hreach. pose proof (reachable_timers_ok s Hreach) as Hok.
  split; [|split; [|split]].
  - intros Hne. apply startPolling_truthy. by apply timer_ref_truthy.
  - apply startPolling_truthy. by apply startPolling_sets_ref.
  - by apply timers_ok_size.
  - apply timers_ok_size. by apply startPolling_ok.
Qed.

Lemma startPolling_idempotent_witness :
  startPolling sample_polling = sample_polling
  ∧ (size (intervals sample_polling) ≤ 1)%nat.
Proof.
  destruct (startPolling_idempotent sample_polling) as (Hnoop & _ & Hsize & _).
  - exists [Mount; Settle 0 (StatsOk (sample_stats sample_running))]. reflexivity.
  - split; [apply Hnoop; by vm_compute | exact Hsize].
Defined.

(** The cleanup of the mount effect clears the timer the page holds: from
    every state the page can reach, with whatever status it last saw,
    right after the unmount no interval timer is registered and no tick
    can fire. *)
Lemma cleanup_clears_timer s s' :
  reachable s → step Unmount s = Some s' →
  intervals s' = ∅ ∧ (∀ h, step (Tick h) s' = None) ∧ lifecycle s' = Unmounted.
Proof.
  intros Hreach Hstep. pose proof (reachable_timers_ok s Hreach) as Hok.
  simpl in Hstep. destruct (lifecycle s); simplify_eq.
  assert (intervals (cleanup (set_lifecycle Unmounted s)) = ∅) as Hint.
  { unfold cleanup. simpl.
    destruct (truthy_handle (pollIntervalRef s)) eqn:Ht.
    - destruct (truthy_ref_is_handle s Ht) as [h Href]. rewrite Href. simpl.
      by apply delete_ref_timer.
    - simpl. apply null_ref_no_timer; [done|]. by apply falsy_ref_is_null. }
  split; [done|]. split.
  - intros h. by apply tick_none_without_timer.
  - unfold cleanup. simpl.
    destruct (truthy_handle (pollIntervalRef s)); [|done].
    by destruct (pollIntervalRef s).
Qed.

(** C6. A failed poll request is swallowed: when a status query rejects,
    the only change is that the request is no longer in flight; the timer,
    the ref, the cached status and the trace (so: no toast, no refresh) stay
    as they were, and the next tick of the timer sends the status query
    again. *)
Theorem failed_poll_is_swallowed s rid :
  inflight s !! rid = Some AwaitStatus →
  ∃ s', step (Settle rid Rejected) s = Some s'
        ∧ s' = settled rid s
        ∧ intervals s' = intervals s
        ∧ pollIntervalRef s' = pollIntervalRef s
        ∧ rebuildStatus s' = rebuildStatus s
        ∧ trace s' = trace s
        ∧ ∀ h, is_Some (intervals s !! h) →
               ∃ s'', step (Tick h) s' = Some s''
                      ∧ trace s'' = (trace s ++ [Sent Api.getRebuildStatus])%list
                      ∧ intervals s'' = intervals s.
Proof.
  intros Hin. exists (settled rid s).
  split. { simpl. by rewrite Hin. }
  do 5 (split; [done|]).
  intros h [d Hh]. exists (pollRebuildStatus (settled rid s)).
  split; [|done]. simpl. by rewrite Hh.
Qed.

Lemma failed_poll_is_swallowed_witness :
  ∃ s', step (Settle 1 Rejected) sample_querying = Some s'
        ∧ intervals s' = intervals sample_querying
        ∧ trace s' = trace sample_querying.
Proof.
  destruct (failed_poll_is_swallowed sample_querying 1) as (s' & Hs & _ & Hi & _ & _ & Ht & _).
  - reflexivity.
  - exists s'. by repeat split.
Defined.

Lemma sent_snoc r t e :
  sent r (t ++ [e]) = (sent r t + (if is_sent r e then 1 else 0))%nat.
Proof.
  unfold sent. rewrite List.filter_app, length_app. simpl.
  destruct (is_sent r e); simpl; lia.
Qed.

Lemma toasts_snoc_toast t m k : toasts (t ++ [Toast m k]) = (toasts t ++ [(m, k)])%list.
Proof. unfold toasts. by rewrite omap_app. Qed.

Lemma toasts_snoc_sent t r : toasts (t ++ [Sent r]) = toasts t.
Proof. unfold toasts. rewrite omap_app. simpl. by rewrite app_nil_r. Qed.

(** What [startPolling] and the timer bookkeeping leave alone. *)
Lemma startPolling_trace s : trace (startPolling s) = trace s.
Proof. unfold startPolling. by destruct (truthy_handle (pollIntervalRef s)). Qed.

Lemma startPolling_inflight s : inflight (startPolling s) = inflight s.
Proof. unfold startPolling. by destruct (truthy_handle (pollIntervalRef s)). Qed.

Lemma loadStats_settled_trace o s :
  stats_outcome o = true →
  let data := match o with StatsOk d => Some d | _ => None end in
  toasts (trace (loadStats_settled data s).2)
  = (toasts (trace s) ++ load_failure_toasts o)%list
  ∧ ∀ r, sent r (trace (loadStats_settled data s).2) = sent r (trace s).
Proof.
  intros Ho. destruct o; try discriminate; simpl.
  - split; [apply toasts_snoc_toast|]. intros r. rewrite sent_snoc. simpl. lia.
  - split; [by rewrite app_nil_r|done].
Qed.

(** The first part of [pollRebuildStatus_refreshed]: the timer of the ref
    is cleared and the ref reset. *)
Lemma refreshed_stops s status :
  timers_ok s →
  intervals (pollRebuildStatus_refreshed status s) = ∅
  ∧ pollIntervalRef (pollRebuildStatus_refreshed status s) = None.
Proof.
  intros Hok. unfold pollRebuildStatus_refreshed.
  destruct (truthy_handle (pollIntervalRef s)) eqn:Ht.
  - destruct (truthy_ref_is_handle s Ht) as [h Href]. rewrite Href. simpl.
    pose proof (delete_ref_timer s h Hok Href) as Hdel.
    by destruct (RebuildStatus.status status).
  - pose proof (falsy_ref_is_null s Hok Ht) as Href.
    pose proof (null_ref_no_timer s Hok Href) as Hint.
    by destruct (RebuildStatus.status status).
Qed.

Lemma refreshed_trace s status :
  finished status = true →
  trace (pollRebuildStatus_refreshed status s)
  = (trace s ++
      [match RebuildStatus.status status with
       | Completed =>
           Toast (str_or (RebuildStatus.message status) "Database rebuild completed!")
                 success
       | _ =>
           Toast (str_or (RebuildStatus.message status) "Database rebuild failed") error
       end])%list
  ∧ inflight (pollRebuildStatus_refreshed status s) = inflight s.
Proof.
  unfold finished, pollRebuildStatus_refreshed. intros Hfin.
  destruct (RebuildStatus.status status); try discriminate;
    (destruct (truthy_handle (pollIntervalRef s)); [|done]);
    by destruct (pollIntervalRef s).
Qed.

(** A successful trigger starts the polling. *)
Lemma trigger_success_starts_polling s rid response :
  timers_ok s → lifecycle s ≠ Unmounted →
  inflight s !! rid = Some AwaitRebuild →
  ApiResponse.success (RebuildDbResponse.base response) = true →
  ∃ s', step (Settle rid (RebuildOk response)) s = Some s' ∧ polling s'.
Proof.
  intros Hok Hlife Hin Hsucc. eexists. split.
  - simpl. rewrite Hin. simpl. rewrite Hsucc. reflexivity.
  - apply startPolling_polling; [|done].
    eapply same_timers_ok; [|exact Hok].
    eapply same_timers_trans; [apply settled_same|apply showToast_same].
Qed.

(** So does the initial load, when it finds the job running. *)
Lemma initial_load_starts_polling s rid data :
  timers_ok s → lifecycle s ≠ Unmounted →
  inflight s !! rid = Some (AwaitStats ThenEffect) →
  RebuildStatus.is_rebuilding (StatsResponse.rebuild_status data) = true →
  ∃ s', step (Settle rid (StatsOk data)) s = Some s' ∧ polling s'.
Proof.
  intros Hok Hlife Hin Hrun. eexists. split.
  - simpl. rewrite Hin. simpl. unfold effect_then. simpl. rewrite Hrun. reflexivity.
  - apply startPolling_polling; [|done].
    eapply same_timers_ok; [|exact Hok]. by repeat split.
Qed.

(** A tick of a registered timer sends one status query. *)
Lemma tick_polls s h :
  is_Some (intervals s !! h) →
  ∃ s', step (Tick h) s = Some s'
        ∧ trace s' = (trace s ++ [Sent Api.getRebuildStatus])%list
        ∧ inflight s' = <[next_request s := AwaitStatus]> (inflight s)
        ∧ next_request s' = S (next_request s)
        ∧ same_timers s s'.
Proof.
  intros [d Hh]. exists (pollRebuildStatus s). simpl. rewrite Hh.
  repeat split; done.
Qed.


(** A poll that sees the job finished sends one stats request; the timer
    is still registered while that request is in flight. *)
Lemma poll_sees_finished s rid status :
  inflight s !! rid = Some AwaitStatus → finished status = true →
  ∃ s', step (Settle rid (StatusOk status)) s = Some s'
        ∧ trace s' = (trace s ++ [Sent Api.getStats])%list
        ∧ inflight s'
          = <[next_request s := AwaitStats (ThenPoll status)]> (delete rid (inflight s))
        ∧ next_request s' = S (next_request s)
        ∧ rebuildStatus s' = Some status
        ∧ same_timers s s'.
Proof.
  intros Hin Hfin. eexists. split.
  - simpl. rewrite Hin. simpl. rewrite Hfin. reflexivity.
  - repeat split; done.
Qed.

(** When that stats request settles, whether it succeeded or not, the
    timer is cleared, the ref reset and the outcome toast shown. *)
Lemma refresh_settles s rid status o :
  timers_ok s →
  inflight s !! rid = Some (AwaitStats (ThenPoll status)) →
  finished status = true → stats_outcome o = true →
  ∃ s', step (Settle rid o) s = Some s'
        ∧ intervals s' = ∅ ∧ pollIntervalRef s' = None
        ∧ inflight s' = delete rid (inflight s)
        ∧ (∀ r, sent r (trace s') = sent r (trace s))
        ∧ toasts (trace s')
          = (toasts (trace s) ++ load_failure_toasts o ++
              [match RebuildStatus.status status with
               | Completed =>
                   (str_or (RebuildStatus.message status) "Database rebuild completed!",
                    success)
               | _ =>
                   (str_or (RebuildStatus.message status) "Database rebuild failed",
                    error)
               end])%list.
Proof.
  intros Hok Hin Hfin Ho.
  set (data := match o with StatsOk d => Some d | _ => None end).
  set (s1 := (loadStats_settled data (settled rid s)).2).
  assert (step (Settle rid o) s = Some (pollRebuildStatus_refreshed status s1)) as Hstep.
  { simpl. rewrite Hin. destruct o; try discriminate; reflexivity. }
  assert (timers_ok s1) as Hok1.
  { eapply same_timers_ok; [|exact Hok].
    eapply same_timers_trans; [apply settled_same|apply loadStats_settled_same]. }
  destruct (refreshed_stops s1 status Hok1) as [Hint Href].
  destruct (refreshed_trace s1 status Hfin) as [Htr Hfl].
  destruct (loadStats_settled_trace o (settled rid s) Ho) as [Hto Hse].
  fold data in Hto, Hse. fold s1 in Hto, Hse.
  exists (pollRebuildStatus_refreshed status s1).
  split; [done|]. split; [done|]. split; [done|]. split.
  { rewrite Hfl. subst s1 data. by destruct o. }
  split.
  - intros r. rewrite Htr, sent_snoc, Hse. simpl.
    destruct (RebuildStatus.status status); simpl; lia.
  - rewrite Htr.
    destruct (RebuildStatus.status status);
      rewrite toasts_snoc_toast, Hto; by rewrite <- (assoc_L (++)).
Qed.

(** A poll that runs alone, from the tick to the end of its reload:
    one status query, one stats request, and the timer is gone. *)
Lemma lone_poll_refreshes_once s h status o :
  timers_ok s → is_Some (intervals s !! h) →
  finished status = true → stats_outcome o = true →
  ∃ s', run [Tick h; Settle (next_request s) (StatusOk status);
             Settle (S (next_request s)) o] s = Some s'
        ∧ sent Api.getRebuildStatus (trace s') = S (sent Api.getRebuildStatus (trace s))
        ∧ sent Api.getStats (trace s') = S (sent Api.getStats (trace s))
        ∧ intervals s' = ∅ ∧ pollIntervalRef s' = None
        ∧ (no_poll_in_flight s → no_poll_in_flight s').
Proof.
  intros Hok Hh Hfin Ho.
  destruct (tick_polls s h Hh) as (s1 & Hstep1 & Htr1 & Hfl1 & Hnext1 & Hsame1).
  destruct (poll_sees_finished s1 (next_request s) status)
    as (s2 & Hstep2 & Htr2 & Hfl2 & Hnext2 & _ & Hsame2); [|done|].
  { rewrite Hfl1. apply lookup_insert_eq. }
  destruct (refresh_settles s2 (S (next_request s)) status o)
    as (s3 & Hstep3 & Hint3 & Href3 & Hfl3 & Hsent3 & _); [| |done|done|].
  { eapply same_timers_ok; [|exact Hok]. by eapply same_timers_trans. }
  { rewrite Hfl2, Hnext1. apply lookup_insert_eq. }
  exists s3. split.
  { cbn [run]. rewrite Hstep1. cbn [run]. rewrite Hstep2. cbn [run]. by rewrite Hstep3. }
  split. { rewrite Hsent3, Htr2, Htr1, !sent_snoc. simpl. lia. }
  split. { rewrite Hsent3, Htr2, Htr1, !sent_snoc. simpl. lia. }
  split; [done|]. split; [done|].
  intros Hquiet rid k. rewrite Hfl3, Hfl2, Hfl1, Hnext1.
  intros Hk. apply lookup_delete_Some in Hk as [Hne1 Hk].
  rewrite lookup_insert_ne in Hk by done.
  apply lookup_delete_Some in Hk as [Hne2 Hk].
  rewrite lookup_insert_ne in Hk by done.
  by eapply Hquiet.
Qed.

(** C1, as the page implements it.  In every state the page can reach:
    while it stands, a successful trigger and an initial load that finds
    the job running leave it polling, with one timer at 1000 ms; every tick
    of the timer sends the status query; a poll that observes [completed]
    or [failed] sends one stats reload, the timer still registered; when
    that reload settles (either way) the timer is cleared and the ref
    reset, with no further stats request; and a poll that runs alone from
    tick to settled reload makes exactly one final refresh and leaves
    neither a timer nor a poll behind. *)
Theorem poll_until_finished s :
  reachable s →
  (lifecycle s ≠ Unmounted →
   (∀ rid response,
      inflight s !! rid = Some AwaitRebuild →
      ApiResponse.success (RebuildDbResponse.base response) = true →
      ∃ s', step (Settle rid (RebuildOk response)) s = Some s' ∧ polling s')
   ∧ (∀ rid data,
        inflight s !! rid = Some (AwaitStats ThenEffect) →
        RebuildStatus.is_rebuilding (StatsResponse.rebuild_status data) = true →
        ∃ s', step (Settle rid (StatsOk data)) s = Some s' ∧ polling s'))
  ∧ (∀ h, is_Some (intervals s !! h) →
          ∃ s', step (Tick h) s = Some s'
                ∧ trace s' = (trace s ++ [Sent Api.getRebuildStatus])%list)
  ∧ (∀ rid status,
       inflight s !! rid = Some AwaitStatus → finished status = true →
       ∃ s', step (Settle rid (StatusOk status)) s = Some s'
             ∧ trace s' = (trace s ++ [Sent Api.getStats])%list
             ∧ intervals s' = intervals s)
  ∧ (∀ rid status o,
       inflight s !! rid = Some (AwaitStats (ThenPoll status)) →
       finished status = true → stats_outcome o = true →
       ∃ s', step (Settle rid o) s = Some s'
             ∧ intervals s' = ∅ ∧ pollIntervalRef s' = None
             ∧ sent Api.getStats (trace s') = sent Api.getStats (trace s))
  ∧ (∀ h status o,
       is_Some (intervals s !! h) → finished status = true → stats_outcome o = true →
       ∃ s', run [Tick h; Settle (next_request s) (StatusOk status);
                  Settle (S (next_request s)) o] s = Some s'
             ∧ sent Api.getStats (trace s') = S (sent Api.getStats (trace s))
             ∧ intervals s' = ∅
             ∧ (∀ h', step (Tick h') s' = None)
             ∧ (no_poll_in_flight s → no_poll_in_flight s')).
Proof.
  intros Hreach. pose proof (reachable_timers_ok s Hreach) as Hok.
  split; [|split; [|split; [|split]]].
  - intros Hlife. split.
    + intros rid response. by apply trigger_success_starts_polling.
    + intros rid data. by apply initial_load_starts_polling.
  - intros h Hh. destruct (tick_polls s h Hh) as (s' & Hstep & Htr & _). eauto.
  - intros rid status Hin Hfin.
    destruct (poll_sees_finished s rid status Hin Hfin)
      as (s' & Hstep & Htr & _ & _ & _ & _ & Hint & _).
    eauto.
  - intros rid status o Hin Hfin Ho.
    destruct (refresh_settles s rid status o Hok Hin Hfin Ho)
      as (s' & Hstep & Hint & Href & _ & Hsent & _).
    exists s'. eauto.
  - intros h status o Hh Hfin Ho.
    destruct (lone_poll_refreshes_once s h status o Hok Hh Hfin Ho)
      as (s' & Hrun & _ & Hstats & Hint & _ & Hquiet).
    exists s'. repeat split; try done.
    intros h'. by apply tick_none_without_timer.
Qed.

Lemma poll_until_finished_witness :
  ∃ s', run [Tick 1; Settle 1 (StatusOk sample_completed);
             Settle 2 (StatsOk (sample_stats sample_completed))] sample_polling = Some s'
        ∧ sent Api.getStats (trace s') = S (sent Api.getStats (trace sample_polling))
        ∧ intervals s' = ∅.
Proof.
  destruct (poll_until_finished sample_polling) as (_ & _ & _ & _ & Hlone).
  - exists [Mount; Settle 0 (StatsOk (sample_stats sample_running))]. reflexivity.
  - destruct (Hlone 1 sample_completed (StatsOk (sample_stats sample_completed)))
      as (s' & Hrun & Hstats & Hint & _); [by eexists|reflexivity|reflexivity|].
    exists s'. by repeat split.
Defined.

(** C1 as stated fails when polls overlap.  The initial load finds the job
    running; one poll observes [completed], and the timer is still
    registered; it ticks again before the first poll's reload has settled;
    the second poll observes [completed] too and reloads as well: the
    poller has made two final refreshes (three stats requests with the
    initial load) and shown the outcome toast twice. *)
Lemma overlapping_polls_refresh_twice :
  let observed := [Tick 1; Settle 1 (StatusOk sample_completed)] in
  let later := [Tick 1; Settle 2 (StatsOk (sample_stats sample_completed));
                Settle 3 (StatusOk sample_completed);
                Settle 4 (StatsOk (sample_stats sample_completed))] in
  reachable sample_polling
  ∧ sent Api.getStats (trace sample_polling) = 1%nat
  ∧ (∃ s, run observed sample_polling = Some s
          ∧ rebuildStatus s = Some sample_completed
          ∧ intervals s !! 1 = Some 1000)
  ∧ (∃ s, run (observed ++ later) sample_polling = Some s
          ∧ sent Api.getStats (trace s) = 3%nat
          ∧ toasts (trace s) = [("Rebuilt", success); ("Rebuilt", success)]).
Proof.
  intros observed later. split; [|split; [|split]].
  - exists [Mount; Settle 0 (StatsOk (sample_stats sample_running))].
    vm_compute. reflexivity.
  - vm_compute. reflexivity.
  - exists (default init (run observed sample_polling)).
    vm_compute. repeat split.
  - exists (default init (run (observed ++ later) sample_polling)).
    vm_compute. repeat split.
Qed.

(** No continuation of the page sends the trigger request: resuming a
    suspended function leaves the number of POSTs to [/api/rebuild_db] as
    it was. *)
Lemma resume_posts_nothing k o s s' :
  resume k o s = Some s' →
  sent Api.rebuildDatabase (trace s') = sent Api.rebuildDatabase (trace s).
Proof.
  intros Hres.
  destruct k as [[|status|]| |], o as [|data|status'|response];
    simpl in Hres; simplify_eq;
    unfold effect_then, pollRebuildStatus_refreshed, startPolling, clearInterval;
    simpl;
    repeat (case_match; simpl);
    rewrite ?sent_snoc; simpl; lia.
Qed.

(** The only turn of the event loop that sends the trigger request is a
    click on the rebuild button while the cached status does not show a
    rebuild under way. *)
Lemma post_needs_click e s s' :
  step e s = Some s' →
  sent Api.rebuildDatabase (trace s') ≠ sent Api.rebuildDatabase (trace s) →
  e = ClickRebuild ∧ is_rebuilding (rebuildStatus s) = false.
Proof.
  intros Hstep Hne. destruct e as [| |h| | |rid o]; simpl in Hstep.
  - destruct (lifecycle s); simplify_eq. exfalso. apply Hne.
    simpl. rewrite sent_snoc. simpl. lia.
  - destruct (lifecycle s); simplify_eq. exfalso. apply Hne.
    unfold cleanup. simpl.
    destruct (truthy_handle (pollIntervalRef s)); [|done].
    by destruct (pollIntervalRef s).
  - destruct (intervals s !! h); simplify_eq. exfalso. apply Hne.
    simpl. rewrite sent_snoc. simpl. lia.
  - destruct (buttons_shown s); simplify_eq. split; [done|].
    destruct (is_rebuilding (rebuildStatus s)) eqn:Hcached; [|done].
    exfalso. apply Hne. unfold handleRebuild. rewrite Hcached. simpl.
    rewrite sent_snoc. simpl. lia.
  - destruct (buttons_shown s); simplify_eq. exfalso. apply Hne.
    simpl. rewrite sent_snoc. simpl. lia.
  - destruct (inflight s !! rid) as [k|]; simplify_eq. exfalso. apply Hne.
    by rewrite (resume_posts_nothing k o (settled rid s) s').
Qed.

(** C10. While the cached status record shows a rebuild under way,
    [handleRebuild] does not send the trigger request: it shows the
    warning toast and returns, nothing new is in flight; and no other turn
    of the event loop taken from such a state sends it either. *)
Theorem handleRebuild_guarded s :
  is_rebuilding (rebuildStatus s) = true →
  handleRebuild s = showToast "Rebuild already in progress" warning s
  ∧ trace (handleRebuild s)
    = (trace s ++ [Toast "Rebuild already in progress" warning])%list
  ∧ inflight (handleRebuild s) = inflight s
  ∧ ∀ e s', step e s = Some s' →
            sent Api.rebuildDatabase (trace s') = sent Api.rebuildDatabase (trace s).
Proof.
  intros Hcached.
  assert (handleRebuild s = showToast "Rebuild already in progress" warning s) as Heq.
  { unfold handleRebuild. by rewrite Hcached. }
  split; [done|]. rewrite Heq. split; [done|]. split; [done|].
  intros e s' Hstep.
  destruct (decide (sent Api.rebuildDatabase (trace s')
                    = sent Api.rebuildDatabase (trace s))) as [|Hne]; [done|].
  destruct (post_needs_click e s s' Hstep Hne) as [_ Hfalse]. congruence.
Qed.

Lemma handleRebuild_guarded_witness :
  step ClickRebuild sample_polling
  = Some (showToast "Rebuild already in progress" warning sample_polling).
Proof.
  destruct (handleRebuild_guarded sample_polling) as (Heq & _).
  - reflexivity.
  - rewrite <- Heq. reflexivity.
Defined.




End DashboardBehaviour.

(** ** The CRUD operations and their notifications *)

Section CrudFacts.

Lemma images_not_flag (images : list Api.File) :
  filter (λ e : string * Api.FormValue, e.1 = "auto_rebuild")
         (map (λ file, ("images", Api.Blob file)) images) = [].
Proof.
  induction images as [|file images IH]; [done|].
  simpl. rewrite filter_cons_False; [done|]. simpl. discriminate.
Qed.

(** Each of the four operations sends exactly one [auto_rebuild] entry:
    the argument's text, [true] when the argument is left out. *)
Lemma auto_rebuild_sent (a : option bool) :
  (∀ name info_ images,
     Api.getAll "auto_rebuild" (Api.enrollPerson name info_ images a)
     = [Api.Text (bool_toString (default true a))])
  ∧ (∀ person image,
       Api.getAll "auto_rebuild" (Api.addImage person image a)
       = [Api.Text (bool_toString (default true a))])
  ∧ (∀ person,
       Api.getAll "auto_rebuild" (Api.deletePerson person a)
       = [Api.Text (bool_toString (default true a))])
  ∧ (∀ person filename,
       Api.getAll "auto_rebuild" (Api.deleteImage person filename a)
       = [Api.Text (bool_toString (default true a))]).
Proof.
  split; [|split; [|split]]; intros; unfold Api.getAll; simpl; [|done..].
  by rewrite images_not_flag.
Qed.

Lemma info_toasts_app l l' : info_toasts (l ++ l') = (info_toasts l ++ info_toasts l')%list.
Proof. apply List.filter_app. Qed.

Lemma toasts_app t t' : toasts (t ++ t') = (toasts t ++ toasts t')%list.
Proof. apply omap_app. Qed.

Lemma handleDelete_settled_info r s :
  info_toasts (toasts (PersonModal.trace (PersonModal.handleDelete_settled r s)))
  = (info_toasts (toasts (PersonModal.trace s))
     ++ from_option rebuild_started_toasts [] r)%list.
Proof.
  unfold PersonModal.handleDelete_settled, rebuild_started_toasts.
  destruct r as [response|]; simpl;
    repeat (case_match; simpl);
    rewrite ?toasts_app, ?info_toasts_app; simpl;
    rewrite ?app_nil_r, <- ?(assoc_L (++)); simpl; try done.
Qed.

Lemma handleAddImage_settled_info r s :
  info_toasts (toasts (PersonModal.trace (PersonModal.handleAddImage_settled r s)))
  = (info_toasts (toasts (PersonModal.trace s))
     ++ from_option rebuild_started_toasts [] r)%list.
Proof.
  unfold PersonModal.handleAddImage_settled, rebuild_started_toasts.
  destruct r as [response|]; simpl;
    repeat (case_match; simpl);
    rewrite ?toasts_app, ?info_toasts_app; simpl;
    rewrite ?app_nil_r, <- ?(assoc_L (++)); simpl; try done.
Qed.

Lemma handleDeleteImage_settled_info r s :
  info_toasts (toasts (PersonModal.trace (PersonModal.handleDeleteImage_settled r s)))
  = (info_toasts (toasts (PersonModal.trace s))
     ++ from_option rebuild_started_toasts [] r)%list.
Proof.
  unfold PersonModal.handleDeleteImage_settled, rebuild_started_toasts.
  destruct r as [response|]; simpl;
    repeat (case_match; simpl);
    rewrite ?toasts_app, ?info_toasts_app; simpl;
    rewrite ?app_nil_r, <- ?(assoc_L (++)); simpl; try done.
Qed.

Lemma handleSubmit_settled_info r s :
  info_toasts (toasts (Enroll.trace (Enroll.handleSubmit_settled r s)))
  = (info_toasts (toasts (Enroll.trace s))
     ++ from_option rebuild_started_toasts [] r)%list.
Proof.
  unfold Enroll.handleSubmit_settled, rebuild_started_toasts.
  destruct r as [response|]; simpl;
    repeat (case_match; simpl);
    rewrite ?toasts_app, ?info_toasts_app; simpl;
    rewrite ?app_nil_r, <- ?(assoc_L (++)); simpl; try done.
Qed.

(** C8, as the client implements it.  Each of the four CRUD operations
    sends one [auto_rebuild] entry with its request, the text of its
    argument, which defaults to [true]; the handlers of the UI leave the
    argument out; the response type has an optional boolean
    [rebuild_started]; and each handler shows the informational toast
    exactly when the response reports success and [rebuild_started] is
    true ([r] is the response, [None] when the request was rejected). *)
Theorem auto_rebuild_and_rebuild_started (a : option bool) (r : option ApiResponse.t) :
  ((∀ name info_ images,
      Api.getAll "auto_rebuild" (Api.enrollPerson name info_ images a)
      = [Api.Text (bool_toString (default true a))])
   ∧ (∀ person image,
        Api.getAll "auto_rebuild" (Api.addImage person image a)
        = [Api.Text (bool_toString (default true a))])
   ∧ (∀ person,
        Api.getAll "auto_rebuild" (Api.deletePerson person a)
        = [Api.Text (bool_toString (default true a))])
   ∧ (∀ person filename,
        Api.getAll "auto_rebuild" (Api.deleteImage person filename a)
        = [Api.Text (bool_toString (default true a))]))
  ∧ ((∀ s, Enroll.trim (Enroll.name s) ≠ "" →
           ∀ f fs, Enroll.files s = Some (f :: fs) →
           Enroll.trace (Enroll.handleSubmit s)
           = (Enroll.trace s
              ++ [Sent (Api.enrollPerson (Enroll.trim (Enroll.name s)) (Enroll.info_ s)
                                         (f :: fs) None)])%list)
     ∧ (∀ name s file, PersonModal.selectedFile s = Some file →
          PersonModal.trace (PersonModal.handleAddImage name s)
          = (PersonModal.trace s ++ [Sent (Api.addImage name file None)])%list)
     ∧ (∀ name s,
          PersonModal.trace (PersonModal.handleDelete name true s)
          = (PersonModal.trace s ++ [Sent (Api.deletePerson name None)])%list)
     ∧ (∀ name filename s,
          PersonModal.trace (PersonModal.handleDeleteImage name filename true s)
          = (PersonModal.trace s ++ [Sent (Api.deleteImage name filename None)])%list))
  ∧ field ApiResponse_interface "rebuild_started" = Some (optional TBoolean)
  ∧ ((∀ s, info_toasts (toasts (Enroll.trace (Enroll.handleSubmit_settled r s)))
           = (info_toasts (toasts (Enroll.trace s))
              ++ from_option rebuild_started_toasts [] r)%list)
     ∧ (∀ s, info_toasts (toasts (PersonModal.trace (PersonModal.handleAddImage_settled r s)))
             = (info_toasts (toasts (PersonModal.trace s))
                ++ from_option rebuild_started_toasts [] r)%list)
     ∧ (∀ s, info_toasts (toasts (PersonModal.trace (PersonModal.handleDelete_settled r s)))
             = (info_toasts (toasts (PersonModal.trace s))
                ++ from_option rebuild_started_toasts [] r)%list)
     ∧ (∀ s, info_toasts (toasts (PersonModal.trace
                                    (PersonModal.handleDeleteImage_settled r s)))
             = (info_toasts (toasts (PersonModal.trace s))
                ++ from_option rebuild_started_toasts [] r)%list)).
Proof.
  split; [apply auto_rebuild_sent|]. split; [|split; [reflexivity|]].
  - split; [|split; [|split]].
    + intros s Hname f fs Hfiles. unfold Enroll.handleSubmit.
      destruct (Enroll.trim (Enroll.name s)) eqn:Htrim; [done|].
      by rewrite Hfiles.
    + intros name s file Hfile. unfold PersonModal.handleAddImage. by rewrite Hfile.
    + done.
    + done.
  - split; [|split; [|split]]; intros s.
    + apply handleSubmit_settled_info.
    + apply handleAddImage_settled_info.
    + apply handleDelete_settled_info.
    + apply handleDeleteImage_settled_info.
Qed.

Lemma auto_rebuild_and_rebuild_started_witness :
  ∃ request,
    Enroll.trace (Enroll.handleSubmit sample_enroll) = [Sent request]
    ∧ Api.getAll "name" request = [Api.Text "Ada Lovelace"]
    ∧ Api.getAll "auto_rebuild" request = [Api.Text "true"].
Proof.
  destruct (auto_rebuild_and_rebuild_started None None)
    as ((Hflag & _) & (Hsubmit & _) & _).
  exists (Api.enrollPerson "Ada Lovelace" "mathematician" ["ada-1.jpg"; "ada-2.jpg"] None).
  split; [|split; [reflexivity|apply Hflag]].
  apply (Hsubmit sample_enroll); [by vm_compute|reflexivity].
Defined.

(** C8 as stated fails on a response that reports a failure:
    [rebuild_started] is true, and the only toast is the error. *)
Lemma failed_response_shows_no_info_toast :
  ApiResponse.rebuild_started sample_failure = Some true
  ∧ toasts (PersonModal.trace
              (PersonModal.handleDelete_settled (Some sample_failure) PersonModal.init))
    = [("Storage is read-only", error)]
  ∧ toasts (Enroll.trace
              (Enroll.handleSubmit_settled (Some sample_failure) sample_enroll))
    = [("Storage is read-only", error)].
Proof. by repeat split. Qed.

End CrudFacts.

(** ** The job record *)

Section JobRecordFacts.
Import Backend.

Lemma idle_job_ok : job_ok idle.
Proof.
  split; simpl; try done.
  split; [done|]. intros [|]; discriminate.
Qed.

Lemma start_job_ok now tag : job_ok (start now tag).
Proof. split; simpl; try done. split; [by left|done]. Qed.

Lemma write_job_ok w j j' : write w j = Some j' → job_ok j → job_ok j'.
Proof.
  intros Hw [Hphase Hclean Hdone Hfail]. unfold write in Hw.
  destruct (is_running j) eqn:Hrun; [|done].
  pose proof (Hclean eq_refl) as Herr.
  destruct (proj1 Hphase eq_refl) as [Hst|Hst];
    destruct w as [p msg|msg|now|now err]; simpl in Hw;
    repeat case_match; simplify_eq;
    (split; simpl; rewrite ?Hst;
     [ split; [auto|]; try done; intros [|]; discriminate
     | done
     | try done; intros _; by split
     | try done; intros _; by eexists ]).
Qed.

Lemma act_job_ok a j j' : act a j = Some j' → job_ok j → job_ok j'.
Proof.
  intros Hact Hok. destruct a as [now tag|w]; simpl in Hact.
  - simplify_eq. unfold trigger. destruct (is_running j); simpl; [done|].
    apply start_job_ok.
  - by eapply write_job_ok.
Qed.

Lemma run_job_ok acts j j' : run acts j = Some j' → job_ok j → job_ok j'.
Proof.
  revert j. induction acts as [|a acts IH]; intros j Hrun Hok; simpl in Hrun.
  - by simplify_eq.
  - destruct (act a j) as [j1|] eqn:Hact; [|done]. eauto using act_job_ok.
Qed.

Lemma reachable_job_ok j : reachable j → job_ok j.
Proof. intros [acts Hrun]. eapply run_job_ok; [done|apply idle_job_ok]. Qed.

(** Every [RebuildStatus] value is, on the wire, an object of the declared
    interface. *)
Lemma RebuildStatus_conforms r :
  conforms RebuildStatus_interface (RebuildStatus_to_json r) = true.
Proof.
  destruct r as [running p st msg started completed err tag].
  destruct st, started, completed, err, tag as [[]|]; reflexivity.
Qed.

(** C4. In every state the job record can reach, [completed] comes with no
    [last_error] and progress 100, and [failed] comes with a [last_error]. *)
Theorem terminal_status_invariant j :
  reachable j →
  (status j = Completed → last_error j = None ∧ progress j = 100)
  ∧ (status j = Failed → is_Some (last_error j)).
Proof.
  intros Hreach. destruct (reachable_job_ok j Hreach) as [_ _ Hdone Hfail].
  split; assumption.
Qed.

Lemma terminal_status_invariant_witness :
  status sample_done = Completed
  ∧ last_error sample_done = None ∧ progress sample_done = 100.
Proof.
  split; [reflexivity|].
  apply (terminal_status_invariant sample_done); [|reflexivity].
  exists [Trigger "10:00:00" ByManual; Runner (Advance 40 "Encoding faces");
          Runner (Reload "Reloading the index"); Runner (Succeed "10:00:09")].
  reflexivity.
Defined.

End JobRecordFacts.

(** ** The status record and the trigger response on the wire *)

Section WireFacts.

Lemma respond_conforms r :
  conforms RebuildDbResponse_interface (RebuildDbResponse_to_json (Backend.respond r)) = true.
Proof.
  destruct r as [ok err [[running p st msg started completed failure tag]|]];
    destruct err; [| |reflexivity..];
    destruct st, started, completed, failure, tag as [[]|]; reflexivity.
Qed.

(** C2, as the client declares the record.  The [RebuildStatus] interface
    has the eight fields below, the running flag under the name
    [is_rebuilding], a boolean; the record the Status Query Endpoint returns
    for any state the job can reach is an object of that interface, carries
    the running flag under that name, and the flag is true exactly in the
    two working phases, after the start and before [completed] or [failed]. *)
Theorem rebuild_status_record j :
  Backend.reachable j →
  RebuildStatus_interface.*1
  = ["is_rebuilding"; "progress"; "status"; "message"; "started_at"; "completed_at";
     "last_error"; "triggered_by"]
  ∧ field RebuildStatus_interface "is_rebuilding" = Some (required TBoolean)
  ∧ conforms RebuildStatus_interface (RebuildStatus_to_json (Backend.read j)) = true
  ∧ property (RebuildStatus_to_json (Backend.read j)) "is_rebuilding"
    = Some (JBool (Backend.is_running j))
  ∧ (RebuildStatus.is_rebuilding (Backend.read j) = true ↔
     (RebuildStatus.status (Backend.read j) = Rebuilding
      ∨ RebuildStatus.status (Backend.read j) = Reloading)).
Proof.
  intros Hreach. destruct (reachable_job_ok j Hreach) as [Hphase _ _ _].
  split; [reflexivity|]. split; [reflexivity|].
  split; [apply RebuildStatus_conforms|]. split; [reflexivity|].
  exact Hphase.
Qed.

Lemma rebuild_status_record_witness :
  RebuildStatus.is_rebuilding (Backend.read sample_job) = true
  ∧ RebuildStatus.is_rebuilding (Backend.read sample_done) = false.
Proof.
  destruct (rebuild_status_record sample_job) as (_ & _ & _ & _ & Hphase).
  - exists [Backend.Trigger "10:00:00" ByManual;
            Backend.Runner (Backend.Advance 40 "Encoding faces")].
    reflexivity.
  - split; [|reflexivity]. apply Hphase. by left.
Defined.

(** C2 as stated fails on the name of the flag: the interface declares no
    field [is_running], a [RebuildStatus] value on the wire has no such
    member (its flag is the member [is_rebuilding]), and an object that
    carries the flag under the name [is_running] is not a [RebuildStatus]. *)
Lemma no_field_named_is_running :
  field RebuildStatus_interface "is_running" = None
  ∧ property (RebuildStatus_to_json sample_running) "is_running" = None
  ∧ property (RebuildStatus_to_json sample_running) "is_rebuilding" = Some (JBool true)
  ∧ conforms RebuildStatus_interface
      (JObj [ ("is_running", JBool true); ("progress", JNum 40);
              ("status", JStr "rebuilding"); ("message", JStr "Encoding faces");
              ("started_at", JStr "10:00:00"); ("completed_at", JNull);
              ("last_error", JNull); ("triggered_by", JStr "manual") ]) = false.
Proof. by repeat split. Qed.

(** C3. The trigger response has the declared shape: a required boolean
    [success], an optional string [error], an optional [status] record.  A
    trigger that finds a job running returns [success = false] with an
    error text, as a result and not as a rejected request, and leaves the
    job record as it was; the page takes that result through its failure
    branch: one error toast with the error text, and no polling started. *)
Theorem running_trigger_is_rejected now tag j s rid :
  Backend.is_running j = true →
  Dashboard.inflight s !! rid = Some Dashboard.AwaitRebuild →
  (field RebuildDbResponse_interface "success" = Some (required TBoolean)
   ∧ field RebuildDbResponse_interface "error" = Some (optional TString)
   ∧ field RebuildDbResponse_interface "status"
     = Some (optional (TObject RebuildStatus_interface)))
  ∧ conforms RebuildDbResponse_interface
      (RebuildDbResponse_to_json (Backend.respond (Backend.trigger now tag j).1)) = true
  ∧ Backend.success (Backend.trigger now tag j).1 = false
  ∧ Backend.error (Backend.trigger now tag j).1 = Some "already in progress"
  ∧ (Backend.trigger now tag j).2 = j
  ∧ ∃ s', Dashboard.step
            (Dashboard.Settle rid
               (Dashboard.RebuildOk (Backend.respond (Backend.trigger now tag j).1))) s
          = Some s'
          ∧ toasts (Dashboard.trace s')
            = (toasts (Dashboard.trace s)
               ++ [("Failed to start rebuild: already in progress", error)])%list
          ∧ Dashboard.intervals s' = Dashboard.intervals s
          ∧ Dashboard.pollIntervalRef s' = Dashboard.pollIntervalRef s.
Proof.
  intros Hrun Hin.
  split; [by repeat split|]. split; [apply respond_conforms|].
  unfold Backend.trigger. rewrite Hrun. simpl.
  split; [done|]. split; [done|]. split; [done|].
  eexists. split.
  - rewrite Hin. reflexivity.
  - simpl. split; [apply toasts_snoc_toast|done].
Qed.

Lemma running_trigger_is_rejected_witness :
  (Backend.trigger "10:00:05" ByEnroll sample_job).2 = sample_job
  ∧ Backend.success (Backend.trigger "10:00:05" ByEnroll sample_job).1 = false.
Proof.
  destruct (running_trigger_is_rejected "10:00:05" ByEnroll sample_job sample_triggering 1)
    as (_ & _ & Hfalse & _ & Hsame & _).
  - reflexivity.
  - reflexivity.
  - by split.
Defined.

End WireFacts.

(** ** More on the Dashboard: what starts and stops the polling *)

Section DashboardEvents.
Import Dashboard.

Lemma startPolling_loading s : loading (startPolling s) = loading s.
Proof. unfold startPolling. by destruct (truthy_handle (pollIntervalRef s)). Qed.

Lemma refreshed_loading status s :
  loading (pollRebuildStatus_refreshed status s) = loading s.
Proof.
  unfold pollRebuildStatus_refreshed.
  destruct (truthy_handle (pollIntervalRef s)), (pollIntervalRef s),
    (RebuildStatus.status status); reflexivity.
Qed.

Lemma cleanup_loading s : loading (cleanup s) = loading s.
Proof.
  unfold cleanup. by destruct (truthy_handle (pollIntervalRef s)), (pollIntervalRef s).
Qed.

Lemma loadStats_settled_loading data s : loading (loadStats_settled data s).2 = false.
Proof. by destruct data. Qed.

Lemma after_load_loading k r : loading (after_load k r) = loading r.2.
Proof.
  destruct k as [|status|]; simpl; [|apply refreshed_loading|done].
  unfold effect_then. destruct (is_rebuilding r.1); [apply startPolling_loading|done].
Qed.

Lemma resume_loading k o s s' :
  resume k o s = Some s' → loading s = false → loading s' = false.
Proof.
  intros Hres Hoff.
  destruct k as [k'| |], o as [|data|status|response]; unfold resume in Hres;
    simplify_eq.
  - by rewrite after_load_loading, (loadStats_settled_loading None).
  - by rewrite after_load_loading, (loadStats_settled_loading (Some data)).
  - done.
  - simpl. by destruct (finished status).
  - done.
  - simpl. destruct (ApiResponse.success _); [by rewrite startPolling_loading|done].
Qed.

(** No event turns the spinner back on. *)
Lemma step_keeps_loading_off e s s' :
  step e s = Some s' → loading s = false → loading s' = false.
Proof.
  intros Hstep Hoff. destruct e as [| |h| | |rid o]; simpl in Hstep.
  - destruct (lifecycle s); by simplify_eq.
  - destruct (lifecycle s); simplify_eq. by rewrite cleanup_loading.
  - destruct (intervals s !! h); by simplify_eq.
  - destruct (buttons_shown s); simplify_eq.
    unfold handleRebuild. by destruct (is_rebuilding (rebuildStatus s)).
  - destruct (buttons_shown s); by simplify_eq.
  - destruct (inflight s !! rid) as [k|]; [|done].
    by apply (resume_loading k o (settled rid s)).
Qed.

Lemma run_keeps_loading_off es s s' :
  run es s = Some s' → loading s = false → loading s' = false.
Proof.
  revert s. induction es as [|e es IH]; intros s Hrun Hoff; simpl in Hrun.
  - by simplify_eq.
  - destruct (step e s) as [s1|] eqn:Hstep; [|done].
    eauto using step_keeps_loading_off.
Qed.

(** [startPolling] removes no timer, and the two functions that clear the
    timer add none. *)
Lemma startPolling_keeps s h :
  is_Some (intervals s !! h) → is_Some (intervals (startPolling s) !! h).
Proof.
  intros Hh. unfold startPolling.
  destruct (truthy_handle (pollIntervalRef s)); [done|]. simpl.
  destruct (decide (next_handle s = h)) as [->|Hne].
  - rewrite lookup_insert_eq. by eexists.
  - by rewrite lookup_insert_ne.
Qed.

Lemma clearInterval_adds_nothing handle s h :
  is_Some (intervals (clearInterval handle s) !! h) → is_Some (intervals s !! h).
Proof.
  destruct handle as [h0|]; simpl; [|done].
  intros [d Hd]. apply lookup_delete_Some in Hd as [_ Hd]. by eexists.
Qed.

Lemma refreshed_adds_nothing status s h :
  is_Some (intervals (pollRebuildStatus_refreshed status s) !! h) →
  is_Some (intervals s !! h).
Proof.
  unfold pollRebuildStatus_refreshed.
  destruct (truthy_handle (pollIntervalRef s)).
  - intros Hh. apply (clearInterval_adds_nothing (pollIntervalRef s)).
    by destruct (RebuildStatus.status status).
  - by destruct (RebuildStatus.status status).
Qed.

Lemma cleanup_adds_nothing s h :
  is_Some (intervals (cleanup s) !! h) → is_Some (intervals s !! h).
Proof.
  unfold cleanup. destruct (truthy_handle (pollIntervalRef s)); [|done].
  apply clearInterval_adds_nothing.
Qed.

Lemma not_both (o : option Z) : o = None → is_Some o → False.
Proof. intros -> [? ?]. discriminate. Qed.

Lemma timers_unchanged (P Q : Prop) s s' h :
  intervals s' = intervals s →
  (intervals s !! h = None → is_Some (intervals s' !! h) → P)
  ∧ (is_Some (intervals s !! h) → intervals s' !! h = None → Q).
Proof.
  intros ->. split; intros H1 H2; [destruct (not_both _ H1 H2)|destruct (not_both _ H2 H1)].
Qed.

Lemma timers_started (P Q : Prop) s s1 h :
  intervals s1 = intervals s → P →
  (intervals s !! h = None → is_Some (intervals (startPolling s1) !! h) → P)
  ∧ (is_Some (intervals s !! h) → intervals (startPolling s1) !! h = None → Q).
Proof.
  intros Heq HP. split; [done|]. intros Hsome Hnone.
  rewrite <- Heq in Hsome. apply startPolling_keeps in Hsome.
  destruct (not_both _ Hnone Hsome).
Qed.

Lemma timers_stopped (P Q : Prop) s s1 status h :
  intervals s1 = intervals s → Q →
  (intervals s !! h = None →
   is_Some (intervals (pollRebuildStatus_refreshed status s1) !! h) → P)
  ∧ (is_Some (intervals s !! h) →
     intervals (pollRebuildStatus_refreshed status s1) !! h = None → Q).
Proof.
  intros Heq HQ. split; [|done]. intros Hnone Hsome.
  apply refreshed_adds_nothing in Hsome. rewrite Heq in Hsome.
  destruct (not_both _ Hnone Hsome).
Qed.

(** What a turn of the event loop does to the timers: it adds a timer
    only when it starts the polling, and removes one only when it stops
    it. *)
Lemma step_timer_change e s s' h :
  step e s = Some s' →
  (intervals s !! h = None → is_Some (intervals s' !! h) → starts_polling e s)
  ∧ (is_Some (intervals s !! h) → intervals s' !! h = None → stops_polling e s).
Proof.
  intros Hstep. destruct e as [| |h0| | |rid o]; simpl in Hstep.
  - destruct (lifecycle s); simplify_eq. by apply timers_unchanged.
  - destruct (lifecycle s); simplify_eq. split; [|done].
    intros Hnone Hsome. apply cleanup_adds_nothing in Hsome.
    destruct (not_both _ Hnone Hsome).
  - destruct (intervals s !! h0); simplify_eq. by apply timers_unchanged.
  - destruct (buttons_shown s); simplify_eq.
    apply timers_unchanged. apply handleRebuild_same.
  - destruct (buttons_shown s); simplify_eq. by apply timers_unchanged.
  - destruct (inflight s !! rid) as [k|] eqn:Hin; [|done].
    destruct k as [[|status|]| |], o as [|data|status'|response];
      unfold resume in Hstep; simplify_eq.
    + by apply timers_unchanged.
    + unfold after_load, effect_then. simpl.
      destruct (RebuildStatus.is_rebuilding (StatsResponse.rebuild_status data)) eqn:Hrun.
      * by apply timers_started.
      * by apply timers_unchanged.
    + apply timers_stopped; [done|by eexists].
    + apply timers_stopped; [done|by eexists].
    + by apply timers_unchanged.
    + by apply timers_unchanged.
    + by apply timers_unchanged.
    + apply timers_unchanged.
      apply (pollRebuildStatus_settled_same (Some status') (settled rid s)).
    + by apply timers_unchanged.
    + unfold handleRebuild_settled.
      destruct (ApiResponse.success (RebuildDbResponse.base response)) eqn:Hsucc.
      * by apply timers_started.
      * by apply timers_unchanged.
Qed.

(** X1. Once a stats load has settled, with data or with a failure, the
    page shows its content and not the spinner; and from a state without
    the spinner nothing the page does brings the spinner back: the Refresh
    button and the polls reload behind the content. *)
Theorem spinner_never_returns s :
  (∀ rid k o,
     inflight s !! rid = Some (AwaitStats k) → stats_outcome o = true →
     ∃ s', step (Settle rid o) s = Some s' ∧ loading s' = false ∧ render s' ≠ Spinner)
  ∧ (∀ es s', run es s = Some s' → loading s = false → render s' ≠ Spinner).
Proof.
  split.
  - intros rid k o Hin Ho.
    assert (∃ s', step (Settle rid o) s = Some s' ∧ loading s' = false)
      as (s' & Hstep & Hoff).
    { simpl. rewrite Hin. destruct o; try discriminate; unfold resume; eexists;
        (split; [reflexivity|]); rewrite after_load_loading.
      - apply (loadStats_settled_loading None).
      - apply (loadStats_settled_loading (Some data)). }
    exists s'. split; [done|]. split; [done|]. unfold render. by rewrite Hoff.
  - intros es s' Hrun Hoff. unfold render.
    by rewrite (run_keeps_loading_off es s s' Hrun Hoff).
Qed.

Lemma spinner_never_returns_witness :
  render sample_polling ≠ Spinner
  ∧ render (default init (run [Tick 1; ClickRefresh; Settle 1 Rejected] sample_polling))
    ≠ Spinner.
Proof.
  destruct (spinner_never_returns sample_polling) as [_ Hstays].
  split.
  - by apply (Hstays [] sample_polling).
  - apply (Hstays [Tick 1; ClickRefresh; Settle 1 Rejected]); reflexivity.
Defined.

(** X2. A poll timer is registered only by a trigger request that settles
    with [success] or by the initial load that settles with a record whose
    [is_rebuilding] is true.  No click, tick, rejected request, failure
    result or Refresh reload registers one, even when the reload shows a
    job running. *)
Theorem polling_starts_only_on_success e s s' h :
  step e s = Some s' →
  intervals s !! h = None → is_Some (intervals s' !! h) →
  starts_polling e s.
Proof.
  intros Hstep Hnone Hsome.
  destruct (step_timer_change e s s' h Hstep) as [Hstart _].
  by apply Hstart.
Qed.

Lemma polling_starts_only_on_success_witness :
  starts_polling
    (Settle 1 (RebuildOk (RebuildDbResponse.mk (ApiResponse.mk true None None None None)
                                               None)))
    sample_triggering.
Proof.
  apply (polling_starts_only_on_success _ sample_triggering
           (default init
              (step (Settle 1 (RebuildOk (RebuildDbResponse.mk
                                            (ApiResponse.mk true None None None None)
                                            None)))
                    sample_triggering))
           1).
  - reflexivity.
  - reflexivity.
  - by eexists.
Defined.

(** X3. A registered poll timer is removed only by the teardown or when
    the reload that a finished poll started settles.  A rejected poll, a
    poll that sees the job under way, a click and every other settlement
    leave it registered. *)
Theorem polling_stops_only_when_finished e s s' h :
  step e s = Some s' →
  is_Some (intervals s !! h) → intervals s' !! h = None →
  stops_polling e s.
Proof.
  intros Hstep Hsome Hnone.
  destruct (step_timer_change e s s' h Hstep) as [_ Hstop].
  by apply Hstop.
Qed.

Lemma polling_stops_only_when_finished_witness :
  stops_polling Unmount sample_polling.
Proof.
  apply (polling_stops_only_when_finished Unmount sample_polling
           (default init (step Unmount sample_polling)) 1).
  - reflexivity.
  - by eexists.
  - reflexivity.
Defined.

(** X4. The page does not take the job record of the trigger response into
    its cached status: when the trigger request settles, whatever the
    response says, the cached status is as before, so until a poll or a
    reload refreshes it the guard of [handleRebuild] lets a second click
    send the trigger request again. *)
Theorem trigger_response_not_cached s rid response :
  inflight s !! rid = Some AwaitRebuild →
  buttons_shown s = true → is_rebuilding (rebuildStatus s) = false →
  ∃ s1 s2,
    step (Settle rid (RebuildOk response)) s = Some s1
    ∧ rebuildStatus s1 = rebuildStatus s
    ∧ step ClickRebuild s1 = Some s2
    ∧ sent Api.rebuildDatabase (trace s2) = S (sent Api.rebuildDatabase (trace s)).
Proof.
  intros Hin Hshown Hcached.
  set (s1 := handleRebuild_settled (Some response) (settled rid s)).
  assert (rebuildStatus s1 = rebuildStatus s
          ∧ buttons_shown s1 = buttons_shown s
          ∧ sent Api.rebuildDatabase (trace s1) = sent Api.rebuildDatabase (trace s))
    as (Hrs & Hbs & Htr).
  { subst s1. unfold handleRebuild_settled, buttons_shown, startPolling.
    destruct (ApiResponse.success (RebuildDbResponse.base response)); simpl.
    - destruct (truthy_handle (pollIntervalRef s)); simpl;
        rewrite sent_snoc; simpl; repeat split; lia.
    - rewrite sent_snoc. simpl. repeat split; lia. }
  exists s1, (handleRebuild s1). split; [|split; [done|split]].
  - simpl. by rewrite Hin.
  - simpl. by rewrite Hbs, Hshown.
  - unfold handleRebuild. rewrite Hrs, Hcached. simpl.
    rewrite sent_snoc, Htr. simpl. lia.
Qed.

Lemma trigger_response_not_cached_witness :
  ∃ s2,
    run [Settle 1 (RebuildOk (RebuildDbResponse.mk (ApiResponse.mk true None None None None)
                                                   (Some sample_running)));
         ClickRebuild] sample_triggering = Some s2
    ∧ sent Api.rebuildDatabase (trace s2) = 2%nat.
Proof.
  destruct (trigger_response_not_cached sample_triggering 1
              (RebuildDbResponse.mk (ApiResponse.mk true None None None None)
                                    (Some sample_running)))
    as (s1 & s2 & Hs1 & _ & Hs2 & Hsent); [reflexivity..|].
  exists s2. split; [|exact Hsent].
  cbn [run]. rewrite Hs1. cbn [run]. by rewrite Hs2.
Defined.

(** X5. The teardown does not cancel the initial load.  When the page is
    unmounted with no timer held and the load settles afterwards with a
    record whose [is_rebuilding] is true, a poll timer is registered on the
    unmounted page, and its ticks send status queries. *)
Theorem late_load_polls_after_unmount s rid data :
  reachable s →
  lifecycle s = Unmounted → pollIntervalRef s = None →
  inflight s !! rid = Some (AwaitStats ThenEffect) →
  RebuildStatus.is_rebuilding (StatsResponse.rebuild_status data) = true →
  ∃ s', step (Settle rid (StatsOk data)) s = Some s'
        ∧ lifecycle s' = Unmounted
        ∧ intervals s' = {[ next_handle s := 1000 ]}
        ∧ ∃ s'', step (Tick (next_handle s)) s' = Some s''
                 ∧ trace s'' = (trace s' ++ [Sent Api.getRebuildStatus])%list.
Proof.
  intros Hreach Hlife Href Hin Hrun.
  pose proof (reachable_timers_ok s Hreach) as Hok.
  pose proof (null_ref_no_timer s Hok Href) as Hint.
  eexists. split.
  { simpl. rewrite Hin. unfold resume, after_load, effect_then. simpl.
    rewrite Hrun. unfold startPolling. simpl. rewrite Href. simpl. reflexivity. }
  simpl. split; [done|]. split; [by rewrite Hint|].
  eexists. split; [simpl; by rewrite lookup_insert_eq|reflexivity].
Qed.

Lemma late_load_polls_after_unmount_witness :
  ∃ s', step (Settle 0 (StatsOk (sample_stats sample_running))) sample_torn_down = Some s'
        ∧ lifecycle s' = Unmounted
        ∧ intervals s' = {[ 1 := 1000 ]}.
Proof.
  destruct (late_load_polls_after_unmount sample_torn_down 0 (sample_stats sample_running))
    as (s' & Hstep & Hlife & Hint & _).
  - exists [Mount; Unmount]. reflexivity.
  - reflexivity.
  - reflexivity.
  - reflexivity.
  - reflexivity.
  - exists s'. by repeat split.
Defined.

End DashboardEvents.

(** ** The teardown *)

Section Teardown.
Import Dashboard.

Lemma refreshed_lifecycle status s :
  lifecycle (pollRebuildStatus_refreshed status s) = lifecycle s.
Proof.
  unfold pollRebuildStatus_refreshed.
  destruct (truthy_handle (pollIntervalRef s)), (pollIntervalRef s),
    (RebuildStatus.status status); reflexivity.
Qed.

Lemma refreshed_inflight status s :
  inflight (pollRebuildStatus_refreshed status s) = inflight s.
Proof.
  unfold pollRebuildStatus_refreshed.
  destruct (truthy_handle (pollIntervalRef s)), (pollIntervalRef s),
    (RebuildStatus.status status); reflexivity.
Qed.

Lemma refreshed_no_timer status s :
  intervals s = ∅ → intervals (pollRebuildStatus_refreshed status s) = ∅.
Proof.
  intros Hint. apply map_empty. intros h.
  destruct (intervals (pollRebuildStatus_refreshed status s) !! h) as [d|] eqn:Hh; [|done].
  destruct (refreshed_adds_nothing status s h) as [d' Hd']; [by eexists|].
  by rewrite Hint, lookup_empty in Hd'.
Qed.

Lemma loadStats_settled_inflight data s :
  inflight (loadStats_settled data s).2 = inflight s.
Proof. by destruct data. Qed.

Lemma loadStats_settled_after data rid s :
  lifecycle s = Unmounted → intervals s = ∅ → no_starter_in_flight s →
  lifecycle (loadStats_settled data (settled rid s)).2 = Unmounted
  ∧ intervals (loadStats_settled data (settled rid s)).2 = ∅
  ∧ no_starter_in_flight (loadStats_settled data (settled rid s)).2.
Proof.
  intros Hlife Hint Hquiet. unfold no_starter_in_flight.
  rewrite loadStats_settled_inflight.
  destruct data; simpl; (split; [done|]; split; [done|]; by apply map_Forall_delete).
Qed.

(** After the teardown, with no timer registered and neither the initial
    load nor a trigger request in flight, a turn of the event loop leaves
    things so: the only events left are settlements of polls and reloads,
    and none of them calls [startPolling]. *)
Lemma step_after_teardown e s s' :
  lifecycle s = Unmounted → intervals s = ∅ → no_starter_in_flight s →
  step e s = Some s' →
  lifecycle s' = Unmounted ∧ intervals s' = ∅ ∧ no_starter_in_flight s'.
Proof.
  intros Hlife Hint Hquiet Hstep.
  destruct e as [| |h| | |rid o]; simpl in Hstep.
  - by rewrite Hlife in Hstep.
  - by rewrite Hlife in Hstep.
  - by rewrite Hint, lookup_empty in Hstep.
  - unfold buttons_shown in Hstep. by rewrite Hlife in Hstep.
  - unfold buttons_shown in Hstep. by rewrite Hlife in Hstep.
  - destruct (inflight s !! rid) as [k|] eqn:Hin; [|done].
    pose proof (map_Forall_lookup_1 _ _ _ _ Hquiet Hin) as Hk.
    destruct k as [[|status|]| |]; simpl in Hk; try discriminate Hk.
    + assert (∃ data, s' = pollRebuildStatus_refreshed
                             status (loadStats_settled data (settled rid s)).2)
        as [data ->].
      { destruct o; unfold resume in Hstep; simplify_eq; by eexists. }
      destruct (loadStats_settled_after data rid s Hlife Hint Hquiet) as (? & ? & ?).
      split; [by rewrite refreshed_lifecycle|].
      split; [by apply refreshed_no_timer|].
      unfold no_starter_in_flight. by rewrite refreshed_inflight.
    + assert (∃ data, s' = (loadStats_settled data (settled rid s)).2) as [data ->].
      { destruct o; unfold resume in Hstep; simplify_eq; by eexists. }
      by apply loadStats_settled_after.
    + assert (∃ r, s' = pollRebuildStatus_settled r (settled rid s)) as [r ->].
      { destruct o; unfold resume in Hstep; simplify_eq; by eexists. }
      assert (no_starter_in_flight (settled rid s)) as Hquiet'.
      { unfold no_starter_in_flight. simpl. by apply map_Forall_delete. }
      unfold pollRebuildStatus_settled.
      destruct r as [status|]; [|done].
      destruct (finished status); [|done].
      split; [done|]. split; [done|].
      unfold no_starter_in_flight. simpl. by apply map_Forall_insert_2.
Qed.

Lemma run_after_teardown es s s' :
  lifecycle s = Unmounted → intervals s = ∅ → no_starter_in_flight s →
  run es s = Some s' →
  lifecycle s' = Unmounted ∧ intervals s' = ∅ ∧ no_starter_in_flight s'.
Proof.
  revert s. induction es as [|e es IH]; intros s Hlife Hint Hquiet Hrun; simpl in Hrun.
  - by simplify_eq.
  - destruct (step e s) as [s1|] eqn:Hstep; [|done].
    destruct (step_after_teardown e s s1 Hlife Hint Hquiet Hstep) as (? & ? & ?).
    by apply (IH s1).
Qed.

(** C7, as the page implements it.  On teardown the poller clears the
    timer it holds, whatever the backend's state: right after the unmount
    no interval timer is registered and no tick can fire.  When neither
    the initial load nor a trigger request is in flight at that moment,
    it stays so whatever settles afterwards: no timer runs in the session.
    (A load or a trigger that is in flight is not cancelled, and its
    continuation may register a timer on the unmounted page.) *)
Theorem unmount_stops_timer s s' :
  reachable s → step Unmount s = Some s' →
  (intervals s' = ∅ ∧ lifecycle s' = Unmounted ∧ ∀ h, step (Tick h) s' = None)
  ∧ (no_starter_in_flight s →
     ∀ es s'', run es s' = Some s'' →
       intervals s'' = ∅ ∧ lifecycle s'' = Unmounted
       ∧ ∀ h, step (Tick h) s'' = None).
Proof.
  intros Hreach Hstep.
  destruct (cleanup_clears_timer s s' Hreach Hstep) as (Hint & Hticks & Hlife).
  split; [done|]. intros Hquiet es s'' Hrun.
  assert (no_starter_in_flight s') as Hquiet'.
  { simpl in Hstep. destruct (lifecycle s); simplify_eq.
    unfold no_starter_in_flight, cleanup. simpl.
    by destruct (truthy_handle (pollIntervalRef s)), (pollIntervalRef s). }
  destruct (run_after_teardown es s' s'' Hlife Hint Hquiet' Hrun) as (Hlife'' & Hint'' & _).
  split; [done|]. split; [done|].
  intros h. simpl. by rewrite Hint'', lookup_empty.
Qed.

Lemma unmount_stops_timer_witness :
  intervals sample_querying ≠ ∅
  ∧ ∃ s s',
      step Unmount sample_querying = Some s
      ∧ run [Settle 1 (StatusOk sample_completed); Settle 2 Rejected] s = Some s'
      ∧ intervals s' = ∅.
Proof.
  split; [by vm_compute|].
  exists (default init (step Unmount sample_querying)),
         (default init
            (run [Unmount; Settle 1 (StatusOk sample_completed); Settle 2 Rejected]
                 sample_querying)).
  split; [reflexivity|]. split; [by vm_compute|].
  destruct (unmount_stops_timer sample_querying
              (default init (step Unmount sample_querying))) as [_ Hafter].
  - exists [Mount; Settle 0 (StatsOk (sample_stats sample_running)); Tick 1].
    reflexivity.
  - reflexivity.
  - apply (Hafter
             ltac:(by (intros rid k Hin; vm_compute in Hin;
                       repeat case_match; simplify_eq))
             [Settle 1 (StatusOk sample_completed); Settle 2 Rejected]).
    by vm_compute.
Defined.

(** C7 as stated fails when a request that starts the polling is in flight
    at the teardown.  The page is unmounted before its initial load has
    settled; the load then reports a job running: a timer is registered on
    the unmounted page, and it goes on ticking and querying the status.
    The same happens with a trigger request that settles with success
    after the page is gone. *)
Lemma timer_registered_after_unmount :
  (∃ s, run [Mount; Unmount; Settle 0 (StatsOk (sample_stats sample_running));
             Tick 1; Settle 1 (StatusOk sample_running); Tick 1] init = Some s
        ∧ lifecycle s = Unmounted
        ∧ intervals s = {[ 1 := 1000 ]}
        ∧ sent Api.getRebuildStatus (trace s) = 2%nat)
  ∧ (∃ s, run [Mount; Settle 0 (StatsOk (sample_stats sample_idle)); ClickRebuild;
               Unmount;
               Settle 1 (RebuildOk (RebuildDbResponse.mk
                                      (ApiResponse.mk true None None None None)
                                      None));
               Tick 1] init = Some s
          ∧ lifecycle s = Unmounted
          ∧ intervals s = {[ 1 := 1000 ]}
          ∧ sent Api.getRebuildStatus (trace s) = 1%nat).
Proof.
  split.
  - exists (default init
              (run [Mount; Unmount; Settle 0 (StatsOk (sample_stats sample_running));
                    Tick 1; Settle 1 (StatusOk sample_running); Tick 1] init)).
    vm_compute. by repeat split.
  - exists (default init
              (run [Mount; Settle 0 (StatsOk (sample_stats sample_idle)); ClickRebuild;
                    Unmount;
                    Settle 1 (RebuildOk (RebuildDbResponse.mk
                                           (ApiResponse.mk true None None None None)
                                           None));
                    Tick 1] init)).
    vm_compute. by repeat split.
Qed.

End Teardown.

(** ** The toast list of the application *)

Section ToastFacts.

Lemma filter_other_ids (now : Z) (l : list App.ToastItem) :
  (∀ t, t ∈ l → App.id t ≠ now) → filter (λ toast, App.id toast ≠ now) l = l.
Proof.
  induction l as [|t l IH]; intros Hall; [done|].
  rewrite filter_cons_True by (apply Hall; left).
  f_equal. apply IH. intros t' Ht'. apply Hall. by right.
Qed.

(** X6. A toast is identified by the millisecond it was shown in.  Closing
    a toast whose millisecond no other toast shares gives back the list as
    it was before the toast; two toasts shown in the same millisecond share
    the id, and closing one closes both. *)
Theorem toast_ids s now m1 k1 m2 k2 :
  ((∀ t, t ∈ App.toasts s → App.id t ≠ now) →
   App.removeToast now (App.showToast now m1 k1 s) = s)
  ∧ App.removeToast now (App.showToast now m2 k2 (App.showToast now m1 k1 s))
    = App.removeToast now s.
Proof.
  split.
  - intros Hfresh. destruct s as [l c]. unfold App.removeToast, App.showToast. simpl in *.
    f_equal. rewrite filter_app, (filter_other_ids now l Hfresh).
    rewrite filter_cons_False by (simpl; intros Hne; by apply Hne).
    by rewrite filter_nil, app_nil_r.
  - destruct s as [l c]. unfold App.removeToast, App.showToast. simpl.
    f_equal. rewrite !filter_app.
    rewrite !filter_cons_False by (simpl; intros Hne; by apply Hne).
    by rewrite filter_nil, !app_nil_r.
Qed.

Lemma toast_ids_witness :
  App.removeToast 1700000001000
    (App.showToast 1700000001000 "Failed to load identities" error sample_toasts)
  = sample_toasts.
Proof.
  destruct (toast_ids sample_toasts 1700000001000 "Failed to load identities" error
                      "" info) as [Hfresh _].
  apply Hfresh. intros t Ht.
  apply list_elem_of_In in Ht. simpl in Ht.
  destruct Ht as [<-|[<-|[]]]; simpl; lia.
Defined.

End ToastFacts.

(** ** Encoded names in URLs *)

Section UrlFacts.
Import ApiRead.

Lemma all_chars_app test s t :
  all_chars test (s +:+ t) = all_chars test s && all_chars test t.
Proof.
  induction s as [|a s IH]; simpl; [done|].
  rewrite IH. by rewrite andb_assoc.
Qed.

Lemma escape_chars a : all_chars component_char (escape a) = true.
Proof. destruct a as [[] [] [] [] [] [] [] []]; reflexivity. Qed.

Lemma escape_unescape a :
  unescape (hex_digit (Ascii.nat_of_ascii a / 16))
           (hex_digit (Ascii.nat_of_ascii a mod 16)) = a.
Proof. destruct a as [[] [] [] [] [] [] [] []]; reflexivity. Qed.

Lemma percent_reserved a : unreserved a = true → a ≠ Ascii.ascii_of_nat 37.
Proof. intros Hu ->. discriminate. Qed.

Lemma encode_chars s : all_chars component_char (encodeURIComponent s) = true.
Proof.
  induction s as [|a s IH]; [done|]. simpl.
  rewrite all_chars_app, IH, andb_true_r.
  destruct (unreserved a) eqn:Hu; [|apply escape_chars].
  simpl. unfold component_char. by rewrite Hu.
Qed.

Lemma escape_head a r :
  escape a +:+ r
  = String (Ascii.ascii_of_nat 37)
      (String (hex_digit (Ascii.nat_of_ascii a / 16))
         (String (hex_digit (Ascii.nat_of_ascii a mod 16)) r)).
Proof. reflexivity. Qed.

Lemma escape_inj a a' r r' : escape a +:+ r = escape a' +:+ r' → a = a' ∧ r = r'.
Proof.
  rewrite !escape_head. intros Heq.
  pose proof (escape_unescape a) as Ha. pose proof (escape_unescape a') as Ha'.
  remember (hex_digit (Ascii.nat_of_ascii a / 16)) as hi.
  remember (hex_digit (Ascii.nat_of_ascii a mod 16)) as lo.
  remember (hex_digit (Ascii.nat_of_ascii a' / 16)) as hi'.
  remember (hex_digit (Ascii.nat_of_ascii a' mod 16)) as lo'.
  injection Heq as -> -> ->. split; [congruence|done].
Qed.

Lemma encode_inj s s' : encodeURIComponent s = encodeURIComponent s' → s = s'.
Proof.
  revert s'. induction s as [|a s IH]; intros [|a' s'] Heq;
    cbn [encodeURIComponent] in Heq.
  - done.
  - destruct (unreserved a'); [discriminate|]. by rewrite escape_head in Heq.
  - destruct (unreserved a); [discriminate|]. by rewrite escape_head in Heq.
  - destruct (unreserved a) eqn:Hu, (unreserved a') eqn:Hu'.
    + injection Heq as -> Heq. f_equal. by apply IH.
    + rewrite escape_head in Heq. injection Heq as -> _.
      by destruct (percent_reserved _ Hu).
    + rewrite escape_head in Heq. injection Heq as <- _.
      by destruct (percent_reserved _ Hu').
    + apply escape_inj in Heq as [-> Heq]. f_equal. by apply IH.
Qed.

Lemma append_inj_l p x y : p +:+ x = p +:+ y → x = y.
Proof. induction p as [|a p IH]; simpl; [done|]. intros [= Heq]. by apply IH. Qed.

(** Two encoded components followed by what follows a slash: the slash
    tells where the first component ends. *)
Lemma split_at_slash x x' y y' :
  all_chars component_char x = true → all_chars component_char x' = true →
  x +:+ "/" +:+ y = x' +:+ "/" +:+ y' → x = x' ∧ y = y'.
Proof.
  revert x'. induction x as [|a x IH]; intros [|a' x'] Hx Hx' Heq; simpl in *.
  - by simplify_eq.
  - injection Heq as Ha _. subst a'. discriminate.
  - injection Heq as Ha _. subst a. discriminate.
  - injection Heq as Ha Heq. subst a'.
    apply andb_true_iff in Hx as [_ Hx]. apply andb_true_iff in Hx' as [_ Hx'].
    destruct (IH x' Hx Hx' Heq) as [-> ->]. done.
Qed.


(** X8. Different names give different URLs: the image URL determines the
    person and the file name, and the request for a person's details
    determines the person. *)
Theorem image_url_determines_names person filename person' filename' :
  (getImageUrl person filename = getImageUrl person' filename' →
   person = person' ∧ filename = filename')
  ∧ (getPerson person = getPerson person' → person = person').
Proof.
  split.
  - unfold getImageUrl. intros Heq.
    apply append_inj_l, append_inj_l in Heq.
    destruct (split_at_slash _ _ _ _ (encode_chars person) (encode_chars person') Heq)
      as [Hp Hf].
    split; by apply encode_inj.
  - unfold getPerson, Api.get. intros [= Heq].
    by apply append_inj_l, encode_inj in Heq.
Qed.

Lemma image_url_determines_names_witness :
  getImageUrl "Ada Lovelace" "ada/1.jpg"
  = "http://localhost:5001/images/Ada%20Lovelace/ada%2F1.jpg"
  ∧ "Ada Lovelace" = "Ada Lovelace" ∧ "ada/1.jpg" = "ada/1.jpg".
Proof.
  split; [reflexivity|].
  apply (image_url_determines_names "Ada Lovelace" "ada/1.jpg" "Ada Lovelace" "ada/1.jpg").
  reflexivity.
Defined.

End UrlFacts.

(** ** The alert endpoint of the bot *)

Section BotFacts.
Import WhatsappBot.

Lemma digits_app s t : digits (s +:+ t) = digits s +:+ digits t.
Proof.
  induction s as [|a s IH]; simpl; [done|].
  destruct (is_digit a); simpl; by rewrite IH.
Qed.

Lemma digits_are_digits s : all_chars is_digit (digits s) = true.
Proof.
  induction s as [|a s IH]; simpl; [done|].
  destruct (is_digit a) eqn:Ha; simpl; [by rewrite Ha|done].
Qed.

Lemma digits_of_digits s : all_chars is_digit s = true → digits s = s.
Proof.
  induction s as [|a s IH]; simpl; [done|].
  intros [Ha Hs]%andb_true_iff. rewrite Ha. f_equal. by apply IH.
Qed.

Lemma digits_filter s :
  String.list_ascii_of_string (digits s) = List.filter is_digit (String.list_ascii_of_string s).
Proof.
  induction s as [|a s IH]; simpl; [done|].
  destruct (is_digit a); simpl; by rewrite IH.
Qed.

(** X9. The sanitised number is the decimal digits of the input, all of
    them and in their order: as a list of characters it is the input
    filtered by [is_digit].  So it is made of digits only, it is not
    longer than the input, sanitising works piece by piece, and
    sanitising once more changes nothing. *)
Theorem digits_sanitised s t :
  String.list_ascii_of_string (digits s) = List.filter is_digit (String.list_ascii_of_string s)
  ∧ all_chars is_digit (digits s) = true
  ∧ digits (digits s) = digits s
  ∧ digits (s +:+ t) = digits s +:+ digits t
  ∧ (String.length (digits s) ≤ String.length s)%nat.
Proof.
  split; [apply digits_filter|].
  split; [apply digits_are_digits|]. split.
  { apply digits_of_digits, digits_are_digits. }
  split; [apply digits_app|].
  induction s as [|a s IH]; simpl; [done|].
  destruct (is_digit a); simpl; lia.
Qed.

(** X10. The alert endpoint answers 400, 200 or 500.  It answers 400
    exactly when [message] or [to] is missing or falsy, and then sends
    nothing; it answers 200 exactly when both are there, [to] is a string
    and the chat client delivered; and whatever it answers it has sent at
    most one message, to the digits of [to] followed by [@c.us]. *)
Theorem send_alert_outcomes request delivered :
  let message := property request "message" in
  let to := property request "to" in
  let result := send_alert request delivered in
  (status result.2 = 400 ∨ status result.2 = 200 ∨ status result.2 = 500)
  ∧ (status result.2 = 400 ↔ truthy message = false ∨ truthy to = false)
  ∧ (status result.2 = 400 → result.1 = [])
  ∧ (status result.2 = 200 ↔
     truthy message = true ∧ truthy to = true ∧ delivered = true
     ∧ ∃ number, to = Some (JStr number))
  ∧ (result.1 = []
     ∨ ∃ number content,
         to = Some (JStr number) ∧ message = Some content
         ∧ result.1 = [SendMessage (digits number +:+ "@c.us") content]).
Proof.
  simpl. unfold send_alert.
  destruct (truthy (property request "message")) eqn:Hm,
           (truthy (property request "to")) eqn:Ht; simpl.
  - destruct (property request "to") as [[| | |number|]|] eqn:Hto;
      try discriminate; simpl.
    + split; [auto|]. split; [split; [done|intros [|]; done]|]. split; [done|].
      split; [split; [done|by intros (_ & _ & _ & ? & ?)]|by left].
    + split; [auto|]. split; [split; [done|intros [|]; done]|]. split; [done|].
      split; [split; [done|by intros (_ & _ & _ & ? & ?)]|by left].
    + destruct (property request "message") as [content|] eqn:Hmsg; [|done].
      destruct delivered; simpl.
      * split; [auto|]. split; [split; [done|intros [|]; done]|]. split; [done|].
        split; [split; [eauto|done]|right; eauto].
      * split; [auto|]. split; [split; [done|intros [|]; done]|]. split; [done|].
        split; [split; [done|by intros (_ & _ & ? & _)]|right; eauto].
    + split; [auto|]. split; [split; [done|intros [|]; done]|]. split; [done|].
      split; [split; [done|by intros (_ & _ & _ & ? & ?)]|by left].
  - split; [auto|]. split; [split; auto|]. split; [done|].
    split; [split; [done|by intros (_ & ? & _)]|by left].
  - split; [auto|]. split; [split; auto|]. split; [done|].
    split; [split; [done|by intros (? & _)]|by left].
  - split; [auto|]. split; [split; auto|]. split; [done|].
    split; [split; [done|by intros (? & _)]|by left].
Qed.

Lemma send_alert_outcomes_witness :
  status (send_alert (JObj [("message", JStr "Intruder at gate 2");
                            ("to", JStr "+91 98765-43210")]) true).2 = 200
  ∧ (send_alert (JObj [("message", JStr "Intruder at gate 2");
                       ("to", JStr "+91 98765-43210")]) true).1
    = [SendMessage "919876543210@c.us" (JStr "Intruder at gate 2")].
Proof.
  destruct (send_alert_outcomes
              (JObj [("message", JStr "Intruder at gate 2");
                     ("to", JStr "+91 98765-43210")]) true)
    as (_ & _ & _ & [_ Hok] & _).
  split; [|reflexivity]. apply Hok.
  split; [reflexivity|]. split; [reflexivity|]. split; [reflexivity|].
  by eexists.
Defined.

(** X11. The recipient is checked for presence only.  A non-empty [to]
    without any digit passes the check, and the alert is addressed to the
    chat id [@c.us]. *)
Theorem alert_without_digits content number delivered :
  truthy (Some content) = true → number ≠ "" → digits number = "" →
  (send_alert (JObj [("message", content); ("to", JStr number)]) delivered).1
  = [SendMessage "@c.us" content].
Proof.
  intros Hc Hn Hd. unfold send_alert.
  assert (property (JObj [("message", content); ("to", JStr number)]) "message"
          = Some content) as -> by reflexivity.
  assert (property (JObj [("message", content); ("to", JStr number)]) "to"
          = Some (JStr number)) as -> by reflexivity.
  rewrite Hc. destruct number as [|a number]; [done|].
  cbn -[digits]. by rewrite Hd.
Qed.

Lemma alert_without_digits_witness :
  (send_alert (JObj [("message", JStr "Intruder at gate 2"); ("to", JStr "unknown")])
              true).1
  = [SendMessage "@c.us" (JStr "Intruder at gate 2")].
Proof.
  apply (alert_without_digits (JStr "Intruder at gate 2") "unknown" true); done.
Defined.

End BotFacts.

(** ** The enrolment wizard: previews and what it sends *)

Section WizardFacts.
Import EnrollWizard.

#[local] Set Warnings "-clear-no-such-hyp".

(** What the [forEach] of [handleFiles] makes: a preview for each image
    file, in order, under object URLs that were not in use. *)
Lemma collect_spec files s :
  images (collect files s).2 = images s
  ∧ left_page (collect files s).2 = left_page s
  ∧ file <$> (collect files s).1 = List.filter is_image files
  ∧ preview <$> (collect files s).1 = seq (next_url s) (length (collect files s).1)
  ∧ next_url (collect files s).2 = (next_url s + length (collect files s).1)%nat
  ∧ objectURLs (collect files s).2
    = list_to_set (preview <$> (collect files s).1) ∪ objectURLs s.
Proof.
  revert s. induction files as [|f files IH]; intros s; simpl.
  - split; [done|]. split; [done|]. split; [done|]. split; [done|].
    split; [lia|set_solver].
  - destruct (is_image f) eqn:Hf; [|apply IH].
    pose proof (IH (createObjectURL s).2) as IH'. simpl in IH'.
    destruct (collect files _) as [newImages s2]. simpl in *.
    destruct IH' as (Himg & Hleft & Hfiles & Hprev & Hnext & Hurls).
    split; [done|]. split; [done|]. split; [f_equal; exact Hfiles|].
    split; [f_equal; exact Hprev|]. split; [rewrite Hnext; lia|].
    etrans; [exact Hurls|]. set_solver.
Qed.

Lemma revoke_all_spec (l : list PreviewImage) s :
  images (foldl (λ s img, revokeObjectURL (preview img) s) s l) = images s
  ∧ left_page (foldl (λ s img, revokeObjectURL (preview img) s) s l) = left_page s
  ∧ next_url (foldl (λ s img, revokeObjectURL (preview img) s) s l) = next_url s
  ∧ objectURLs (foldl (λ s img, revokeObjectURL (preview img) s) s l)
    = objectURLs s ∖ list_to_set (preview <$> l).
Proof.
  revert s. induction l as [|img l IH]; intros s; simpl.
  - split; [done|]. split; [done|]. split; [done|]. set_solver.
  - destruct (IH (revokeObjectURL (preview img) s)) as (Himg & Hleft & Hnext & Hurls).
    split; [done|]. split; [done|]. split; [done|].
    rewrite Hurls. simpl. set_solver.
Qed.

Lemma list_to_set_delete (l : list nat) i p :
  NoDup l → l !! i = Some p →
  list_to_set (C:=gset nat) (delete i l) = list_to_set l ∖ {[ p ]}.
Proof.
  revert i. induction l as [|x l IH]; intros [|i] Hnd Hp; simplify_eq; simpl in *.
  - apply NoDup_cons in Hnd as [Hx _]. set_solver.
  - apply NoDup_cons in Hnd as [Hx Hnd].
    rewrite (IH i Hnd Hp).
    assert (x ≠ p) by (intros ->; apply Hx; by eapply list_elem_of_lookup_2).
    set_solver.
Qed.

Lemma init_previews_ok : previews_ok init.
Proof. split; simpl; [done|constructor|]. intros u Hu. by apply elem_of_nil in Hu. Qed.

Lemma handleFiles_previews_ok files s :
  previews_ok s → previews_ok (handleFiles files s).
Proof.
  intros [Hurls Hnd Hknown]. destruct files as [fs|]; [|done].
  unfold handleFiles.
  pose proof (collect_spec fs s) as (Himg & _ & _ & Hprev & Hnext & Hnew).
  destruct (collect fs s) as [newImages s1]. simpl in *.
  split; simpl; rewrite Himg, fmap_app.
  - rewrite Hnew, Hurls, list_to_set_app_L. set_solver.
  - apply NoDup_app. split; [done|]. split.
    + intros u Hu. apply Hknown in Hu. rewrite Hprev, elem_of_seq. lia.
    + rewrite Hprev. apply NoDup_seq.
  - intros u [Hu|Hu]%elem_of_app.
    + apply Hknown in Hu. lia.
    + rewrite Hprev, elem_of_seq in Hu. lia.
Qed.

Lemma removeImage_previews_ok index s s' :
  removeImage index s = Some s' → previews_ok s → previews_ok s'.
Proof.
  unfold removeImage. intros Hrem [Hurls Hnd Hknown].
  destruct (images s !! index) as [img|] eqn:Himg; simplify_eq.
  assert ((preview <$> images s) !! index = Some (preview img)) as Hp.
  { by rewrite list_lookup_fmap, Himg. }
  split; simpl; rewrite list_fmap_delete.
  - by rewrite Hurls, (list_to_set_delete _ index (preview img)).
  - rewrite delete_take_drop. rewrite <- (take_drop_middle _ _ _ Hp) in Hnd.
    apply NoDup_app in Hnd as (Hl & Hdis & Hr). apply NoDup_cons in Hr as [_ Hr].
    apply NoDup_app. repeat split; [done| |done].
    intros u Hu Hu'. apply (Hdis u Hu). by right.
  - intros u Hu. apply Hknown. by eapply list_elem_of_delete_inv.
Qed.

Lemma clearAll_previews_ok s : previews_ok s → previews_ok (clearAll s).
Proof.
  intros [Hurls Hnd Hknown]. unfold clearAll.
  destruct (revoke_all_spec (images s) s) as (_ & _ & _ & Hrev).
  split; simpl.
  - rewrite Hrev, Hurls. set_solver.
  - constructor.
  - intros u Hu. by apply elem_of_nil in Hu.
Qed.

Lemma previews_ok_same s s' :
  objectURLs s' = objectURLs s → images s' = images s → next_url s' = next_url s →
  previews_ok s → previews_ok s'.
Proof. intros Hu Hi Hn [? ? ?]. split; rewrite ?Hu, ?Hi, ?Hn; done. Qed.

(** The previews are in order across every turn that does not leave the
    page. *)
Lemma step_previews_ok e s s' :
  step e s = Some s' → left_page s' = false → previews_ok s → previews_ok s'.
Proof.
  intros Hstep Hstay Hok.
  destruct e; simpl in Hstep;
    try (destruct (left_page s) eqn:Hleft; [discriminate|]).
  - simplify_eq. by apply (previews_ok_same s).
  - simplify_eq. by apply (previews_ok_same s).
  - simplify_eq. by apply handleFiles_previews_ok.
  - simplify_eq. by apply (previews_ok_same s).
  - simplify_eq. by apply (previews_ok_same s).
  - simplify_eq. apply (handleFiles_previews_ok (Some files)).
    by apply (previews_ok_same s).
  - by eapply removeImage_previews_ok.
  - destruct (canProceedToStep3 s); simplify_eq. by apply clearAll_previews_ok.
  - destruct (canProceedToStep2 s); simplify_eq. by apply (previews_ok_same s).
  - simplify_eq. by apply (previews_ok_same s).
  - destruct (canProceedToStep3 s); simplify_eq. by apply (previews_ok_same s).
  - simplify_eq. by apply (previews_ok_same s).
  - destruct (isSubmitting s); simplify_eq. unfold handleSubmit.
    destruct (canProceedToStep2 s), (canProceedToStep3 s); simpl;
      by apply (previews_ok_same s).
  - destruct (submitted s) as [closure|]; simplify_eq.
    unfold handleSubmit_settled in *.
    destruct r as [response|]; simpl in *; [|by apply (previews_ok_same s)].
    destruct (ApiResponse.success response); simpl in *;
      [discriminate|by apply (previews_ok_same s)].
Qed.

(** No turn brings back a page that was left. *)
Lemma step_left_page e s s' : step e s = Some s' → left_page s = true → left_page s' = true.
Proof.
  intros Hstep Hleft. destruct e; simpl in Hstep; rewrite ?Hleft in Hstep;
    try discriminate.
  destruct (submitted s); simplify_eq. unfold handleSubmit_settled.
  destruct r as [response|]; simpl; [|done].
  by destruct (ApiResponse.success response).
Qed.

Lemma run_previews_ok es s s' :
  run es s = Some s' → left_page s' = false → previews_ok s → previews_ok s'.
Proof.
  revert s. induction es as [|e es IH]; intros s Hrun Hstay Hok; simpl in Hrun.
  - by simplify_eq.
  - destruct (step e s) as [s1|] eqn:Hstep; [|done].
    apply (IH s1 Hrun Hstay). apply (step_previews_ok e s s1 Hstep); [|done].
    destruct (left_page s1) eqn:Hleft1; [|done].
    assert (left_page s' = true); [|congruence].
    clear -Hrun Hleft1. revert s1 Hrun Hleft1.
    induction es as [|e' es IH']; intros s1 Hrun Hleft1; simpl in Hrun.
    + by simplify_eq.
    + destruct (step e' s1) as [s2|] eqn:Hstep'; [|done].
      eauto using step_left_page.
Qed.

(** X12. While the enrolment page is open, the object URLs the window
    holds for it are exactly the previews of the images listed, each image
    under a URL of its own: adding, removing and clearing images neither
    leaves a URL behind nor shows a preview that was revoked. *)
Theorem previews_are_the_live_urls s :
  reachable s → left_page s = false →
  objectURLs s = list_to_set (preview <$> images s)
  ∧ NoDup (preview <$> images s).
Proof.
  intros [es Hrun] Hstay.
  destruct (run_previews_ok es init s Hrun Hstay init_previews_ok) as [Hurls Hnd _].
  by split.
Qed.

Lemma previews_are_the_live_urls_witness :
  objectURLs sample_wizard = {[ 0%nat; 1%nat ]}
  ∧ preview <$> images sample_wizard = [0%nat; 1%nat].
Proof.
  destruct (previews_are_the_live_urls sample_wizard) as [Hurls _].
  - exists [TypeName " Ada Lovelace"; ContinueToImages;
            Drop [sample_photo; sample_scan; sample_photo]].
    reflexivity.
  - reflexivity.
  - split; [|reflexivity]. rewrite Hurls. reflexivity.
Defined.

Lemma handleFiles_only_images files s :
  Forall (λ img, is_image (file img) = true) (images s) →
  Forall (λ img, is_image (file img) = true) (images (handleFiles files s)).
Proof.
  intros Hall. destruct files as [fs|]; [|done]. unfold handleFiles.
  pose proof (collect_spec fs s) as (Himg & _ & Hfiles & _).
  destruct (collect fs s) as [newImages s1]. simpl in *.
  rewrite Himg. apply Forall_app. split; [done|].
  apply Forall_forall. intros img Hin.
  assert (file img ∈ List.filter is_image fs) as Hf.
  { rewrite <- Hfiles. apply list_elem_of_fmap. by exists img. }
  apply list_elem_of_In, List.filter_In in Hf. by destruct Hf.
Qed.

Lemma step_only_images e s s' :
  step e s = Some s' →
  Forall (λ img, is_image (file img) = true) (images s) →
  Forall (λ img, is_image (file img) = true) (images s').
Proof.
  intros Hstep Hall.
  destruct e; simpl in Hstep;
    try (destruct (left_page s) eqn:Hleft; [discriminate|]).
  - by simplify_eq.
  - by simplify_eq.
  - simplify_eq. by apply handleFiles_only_images.
  - by simplify_eq.
  - by simplify_eq.
  - simplify_eq. by apply (handleFiles_only_images (Some files)).
  - unfold removeImage in Hstep. destruct (images s !! index); simplify_eq. simpl.
    apply Forall_forall. intros img Hin.
    apply list_elem_of_lookup in Hin as [i Hi].
    rewrite Forall_forall in Hall. apply Hall.
    destruct (decide (i < index)%nat).
    + rewrite list_lookup_delete_lt in Hi by done. by eapply list_elem_of_lookup_2.
    + rewrite list_lookup_delete_ge in Hi by lia. by eapply list_elem_of_lookup_2.
  - destruct (canProceedToStep3 s); simplify_eq. constructor.
  - destruct (canProceedToStep2 s); by simplify_eq.
  - by simplify_eq.
  - destruct (canProceedToStep3 s); by simplify_eq.
  - by simplify_eq.
  - destruct (isSubmitting s); simplify_eq. unfold handleSubmit.
    by destruct (canProceedToStep2 s), (canProceedToStep3 s).
  - destruct (submitted s) as [closure|]; simplify_eq.
    unfold handleSubmit_settled. destruct r as [response|]; simpl; [|done].
    destruct (ApiResponse.success response); simpl; [|done].
    match goal with
    | |- context [foldl ?f ?s0 ?l] =>
        destruct (revoke_all_spec l s0) as (-> & _)
    end.
    by destruct (truthy_flag (ApiResponse.rebuild_started response)).
Qed.

(** X13. Only image files get into the list: [handleFiles] appends the
    files whose type starts with [image/], in their order, and drops the
    others without a word; so in every state the page can reach, every
    image listed, and with it every file a submit sends, is an image
    file. *)
Theorem only_image_files s files :
  reachable s →
  Forall (λ img, is_image (file img) = true) (images s)
  ∧ file <$> images (handleFiles (Some files) s)
    = ((file <$> images s) ++ List.filter is_image files)%list
  ∧ trace (handleFiles (Some files) s) = trace s.
Proof.
  intros [es Hrun]. split; [|split].
  - assert (Forall (λ img, is_image (file img) = true) (images init)) as Hinit
      by constructor.
    revert Hrun Hinit. generalize init.
    induction es as [|e es IH]; intros s0 Hrun0 Hall; simpl in *.
    + by simplify_eq.
    + destruct (step e s0) as [s1|] eqn:Hstep; [|done].
      eauto using step_only_images.
  - unfold handleFiles.
    pose proof (collect_spec files s) as (Himg & _ & Hfiles & _).
    destruct (collect files s) as [newImages s1]. simpl in *.
    by rewrite Himg, fmap_app, Hfiles.
  - unfold handleFiles. clear Hrun.
    revert s. induction files as [|f files IH]; intros s; [done|]. simpl.
    destruct (is_image f); [|apply IH].
    pose proof (IH (createObjectURL s).2) as IH'. simpl in *.
    by destruct (collect files _).
Qed.

Lemma only_image_files_witness :
  file <$> images (handleFiles (Some [sample_scan; sample_photo]) sample_wizard)
  = [sample_photo; sample_photo; sample_photo].
Proof.
  destruct (only_image_files sample_wizard [sample_scan; sample_photo]) as (_ & Hadd & _).
  - exists [TypeName " Ada Lovelace"; ContinueToImages;
            Drop [sample_photo; sample_scan; sample_photo]].
    reflexivity.
  - rewrite Hadd. reflexivity.
Defined.

End WizardFacts.


(** ** What the enrolment pages send *)

Section EnrolRequestFacts.

Lemma append_cons a (w r : string) : String a w +:+ r = String a (w +:+ r).
Proof. reflexivity. Qed.

Lemma append_nil (r : string) : "" +:+ r = r.
Proof. reflexivity. Qed.

Lemma prefix_app w s : String.prefix w s = true ↔ ∃ r, s = w +:+ r.
Proof.
  revert s. induction w as [|a w IH]; intros s.
  - destruct s; simpl; (split; [by eexists|done]).
  - destruct s as [|b s]; simpl; [split; [done|by intros [r ?]]|].
    destruct (Ascii.ascii_dec a b) as [->|Hne].
    + rewrite IH. split; intros [r Hr]; exists r; rewrite append_cons in *; congruence.
    + split; [done|]. intros [r Hr]. rewrite append_cons in Hr. congruence.
Qed.

Lemma ends_with_app w s : ends_with w s = true ↔ ∃ r, s = r +:+ w.
Proof.
  induction s as [|b s IH].
  - simpl. rewrite orb_false_r, String.eqb_eq. split; [by intros ->; exists ""|].
    intros [[|??] Hr]; [done|]. rewrite append_cons in Hr. discriminate.
  - simpl ends_with at 1. rewrite orb_true_iff, String.eqb_eq, IH. split.
    + intros [->|[r ->]]; [by exists ""|by exists (String b r)].
    + intros [[|a r] Hr]; [by left|]. right. exists r.
      rewrite append_cons in Hr. congruence.
Qed.

Lemma is_space_spec w :
  Enroll.is_space w = true ↔ ∃ c, c ∈ Enroll.white_space ∧ w = Enroll.utf8 c.
Proof.
  unfold Enroll.is_space. rewrite existsb_exists. split.
  - intros (c & Hc & Heq). exists c. split; [by apply list_elem_of_In|].
    by apply String.eqb_eq.
  - intros (c & Hc & ->). exists c. split; [by apply list_elem_of_In|].
    apply String.eqb_refl.
Qed.

Lemma starts_with_space_spec n :
  starts_with_space n = true ↔ ∃ c r, c ∈ Enroll.white_space ∧ n = Enroll.utf8 c +:+ r.
Proof.
  unfold starts_with_space. rewrite existsb_exists. split.
  - intros (c & Hc & Hpre). apply prefix_app in Hpre as [r ->].
    exists c, r. split; [by apply list_elem_of_In|done].
  - intros (c & r & Hc & ->). exists c. split; [by apply list_elem_of_In|].
    apply prefix_app. by exists r.
Qed.

Lemma ends_with_space_spec n :
  ends_with_space n = true ↔ ∃ c r, c ∈ Enroll.white_space ∧ n = r +:+ Enroll.utf8 c.
Proof.
  unfold ends_with_space. rewrite existsb_exists. split.
  - intros (c & Hc & Hend). apply ends_with_app in Hend as [r ->].
    exists c, r. split; [by apply list_elem_of_In|done].
  - intros (c & r & Hc & ->). exists c. split; [by apply list_elem_of_In|].
    apply ends_with_app. by exists r.
Qed.

(** Every white-space code point takes one, two or three bytes, and no
    start of its bytes is a white-space code point too. *)
Lemma white_space_shape c : c ∈ Enroll.white_space → space_shape (Enroll.utf8 c) = true.
Proof.
  assert (forallb (fun c => space_shape (Enroll.utf8 c)) Enroll.white_space = true)
    as Hall by (vm_compute; reflexivity).
  rewrite forallb_forall in Hall. intros Hc. by apply Hall, list_elem_of_In.
Qed.

Lemma trimStart_eq s :
  Enroll.trimStart s
  = match s with
    | EmptyString => s
    | String a r1 =>
        if Enroll.is_space (String a EmptyString) then Enroll.trimStart r1
        else
          match r1 with
          | EmptyString => s
          | String b r2 =>
              if Enroll.is_space (String a (String b EmptyString))
              then Enroll.trimStart r2
              else
                match r2 with
                | EmptyString => s
                | String c r3 =>
                    if Enroll.is_space (String a (String b (String c EmptyString)))
                    then Enroll.trimStart r3
                    else s
                end
          end
    end.
Proof. by destruct s. Qed.

(** A white-space code point at the start goes. *)
Lemma trimStart_space c r :
  c ∈ Enroll.white_space → Enroll.trimStart (Enroll.utf8 c +:+ r) = Enroll.trimStart r.
Proof.
  intros Hc. pose proof (white_space_shape c Hc) as Hshape.
  destruct (Enroll.utf8 c) as [|a [|b [|d [|e w]]]]; simpl in Hshape; try done;
    rewrite ?append_cons, ?append_nil, trimStart_eq.
  - by rewrite Hshape.
  - apply andb_true_iff in Hshape as [Ha%negb_true_iff Hab]. by rewrite Ha, Hab.
  - apply andb_true_iff in Hshape
      as [[Ha%negb_true_iff Hab%negb_true_iff]%andb_true_iff Habd].
    by rewrite Ha, Hab, Habd.
Qed.

(** What starts with white space starts with a code point [trimStart]
    tests for. *)
Lemma starts_with_space_cases s :
  starts_with_space s = true →
  match s with
  | EmptyString => False
  | String a r1 =>
      Enroll.is_space (String a EmptyString) = true
      ∨ match r1 with
        | EmptyString => False
        | String b r2 =>
            Enroll.is_space (String a (String b EmptyString)) = true
            ∨ match r2 with
              | EmptyString => False
              | String c _ =>
                  Enroll.is_space (String a (String b (String c EmptyString))) = true
              end
        end
  end.
Proof.
  intros (c & r & Hc & ->)%starts_with_space_spec.
  pose proof (white_space_shape c Hc) as Hshape.
  destruct (Enroll.utf8 c) as [|a [|b [|d [|e w]]]]; simpl in Hshape; try done;
    rewrite ?append_cons, ?append_nil.
  - by left.
  - apply andb_true_iff in Hshape as [_ Hab]. right. by left.
  - apply andb_true_iff in Hshape as [_ Habd]. right. right. done.
Qed.

(** What [trimStart] leaves does not start with white space. *)
Lemma trimStart_no_space s : starts_with_space (Enroll.trimStart s) = false.
Proof.
  remember (String.length s) as n eqn:Hn. revert s Hn.
  induction n as [n IH] using lt_wf_ind. intros s Hn.
  rewrite trimStart_eq.
  destruct s as [|a r1]; [reflexivity|].
  destruct (Enroll.is_space (String a "")) eqn:Ha.
  { apply (IH (String.length r1)); [simpl in Hn; lia|done]. }
  destruct r1 as [|b r2].
  { destruct (starts_with_space (String a "")) eqn:Hs; [|done].
    apply starts_with_space_cases in Hs as [Hs|[]]. congruence. }
  destruct (Enroll.is_space (String a (String b ""))) eqn:Hab.
  { apply (IH (String.length r2)); [simpl in Hn; lia|done]. }
  destruct r2 as [|d r3].
  { destruct (starts_with_space (String a (String b ""))) eqn:Hs; [|done].
    apply starts_with_space_cases in Hs as [Hs|[Hs|[]]]; congruence. }
  destruct (Enroll.is_space (String a (String b (String d "")))) eqn:Habd.
  { apply (IH (String.length r3)); [simpl in Hn; lia|done]. }
  destruct (starts_with_space (String a (String b (String d r3)))) eqn:Hs; [|done].
  apply starts_with_space_cases in Hs as [Hs|[Hs|Hs]]; congruence.
Qed.

Lemma blank_space c r : c ∈ Enroll.white_space → Enroll.blank (Enroll.utf8 c +:+ r) = Enroll.blank r.
Proof. intros Hc. unfold Enroll.blank. by rewrite trimStart_space. Qed.

Lemma trimEnd_eq a rest :
  Enroll.trimEnd (String a rest)
  = if Enroll.blank (String a rest) then "" else String a (Enroll.trimEnd rest).
Proof. reflexivity. Qed.

(** [trimEnd] cuts off white space only. *)
Lemma trimEnd_split s : ∃ tail, s = Enroll.trimEnd s +:+ tail ∧ Enroll.blank tail = true.
Proof.
  induction s as [|a rest [tail [Hrest Htail]]]; [by exists ""|].
  rewrite trimEnd_eq. destruct (Enroll.blank (String a rest)) eqn:Hb.
  - by exists (String a rest).
  - exists tail. split; [|done]. by rewrite append_cons, <- Hrest.
Qed.

(** What [trimEnd] leaves does not end with white space. *)
Lemma trimEnd_no_space s : ends_with_space (Enroll.trimEnd s) = false.
Proof.
  induction s as [|a rest IH]; [reflexivity|].
  rewrite trimEnd_eq. destruct (Enroll.blank (String a rest)) eqn:Hb; [reflexivity|].
  destruct (ends_with_space (String a (Enroll.trimEnd rest))) eqn:Hs; [|done].
  apply ends_with_space_spec in Hs as (c & r & Hc & Heq).
  destruct r as [|a' r'].
  - rewrite append_nil in Heq.
    destruct (trimEnd_split rest) as (tail & Hrest & Htail).
    assert (String a rest = Enroll.utf8 c +:+ tail) as Hall.
    { rewrite <- Heq, append_cons. by rewrite <- Hrest. }
    rewrite Hall, blank_space, Htail in Hb by done. done.
  - rewrite append_cons in Heq. injection Heq as _ Heq.
    assert (ends_with_space (Enroll.trimEnd rest) = true) as Hs; [|congruence].
    apply ends_with_space_spec. by exists c, r'.
Qed.

Lemma append_assoc (s t u : string) : (s +:+ t) +:+ u = s +:+ (t +:+ u).
Proof. induction s as [|a s IH]; [done|]. by rewrite !append_cons, IH. Qed.

(** What [trim] leaves, when it leaves anything, is a proper name. *)
Lemma trim_well_named x : Enroll.trim x ≠ "" → well_named (Enroll.trim x) = true.
Proof.
  intros Hne. unfold well_named.
  apply andb_true_iff. split; [apply andb_true_iff; split|].
  - apply negb_true_iff, String.eqb_neq. done.
  - apply negb_true_iff. unfold Enroll.trim.
    destruct (starts_with_space (Enroll.trimEnd (Enroll.trimStart x))) eqn:Hs; [|done].
    apply starts_with_space_spec in Hs as (c & r & Hc & Heq).
    destruct (trimEnd_split (Enroll.trimStart x)) as (tail & Hsplit & _).
    rewrite Heq, append_assoc in Hsplit.
    assert (starts_with_space (Enroll.trimStart x) = true) as Hs.
    { apply starts_with_space_spec. by exists c, (r +:+ tail). }
    by rewrite trimStart_no_space in Hs.
  - apply negb_true_iff. apply trimEnd_no_space.
Qed.

(** A name of white space only, whatever the code points, trims to
    nothing. *)
Lemma white_name_trims_to_nothing cs :
  Forall (λ c, c ∈ Enroll.white_space) cs →
  Enroll.trim (foldr (λ c r, Enroll.utf8 c +:+ r) "" cs) = "".
Proof.
  intros Hall. unfold Enroll.trim.
  assert (Enroll.trimStart (foldr (λ c r, Enroll.utf8 c +:+ r) "" cs) = "") as ->; [|done].
  induction Hall as [|c cs Hc _ IH]; [done|]. simpl. by rewrite trimStart_space.
Qed.

(** Each of the code points is stripped at either end, the no-break space
    and the other Unicode spaces as well as the ASCII ones. *)
Lemma trim_strips_every_space :
  Forall (λ c, Enroll.trim (Enroll.utf8 c +:+ "Ada Lovelace" +:+ Enroll.utf8 c)
               = "Ada Lovelace")
         Enroll.white_space.
Proof. repeat constructor. Qed.

(** A name of white space only is refused, by the form and by the
    wizard. *)
Lemma white_name_refused cs :
  Forall (λ c, c ∈ Enroll.white_space) cs →
  (∀ s, Enroll.name s = foldr (λ c r, Enroll.utf8 c +:+ r) "" cs →
        Enroll.trace (Enroll.handleSubmit s)
        = (Enroll.trace s ++ [Toast "Person name cannot be empty." warning])%list)
  ∧ (∀ s, EnrollWizard.name s = foldr (λ c r, Enroll.utf8 c +:+ r) "" cs →
          EnrollWizard.canProceedToStep2 s = false
          ∧ EnrollWizard.trace (EnrollWizard.handleSubmit s)
            = (EnrollWizard.trace s ++ [Toast "Please enter a name" warning])%list).
Proof.
  intros Hall. pose proof (white_name_trims_to_nothing cs Hall) as Htrim.
  split; intros s Hname.
  - unfold Enroll.handleSubmit. by rewrite Hname, Htrim.
  - unfold EnrollWizard.handleSubmit, EnrollWizard.canProceedToStep2.
    by rewrite Hname, Htrim.
Qed.

Lemma requests_app t t' : requests (t ++ t') = (requests t ++ requests t')%list.
Proof. apply omap_app. Qed.

Lemma images_not_name (fs : list Api.File) :
  filter (λ e : string * Api.FormValue, e.1 = "name")
         (map (λ file, ("images", Api.Blob file)) fs) = [].
Proof.
  induction fs as [|f fs IH]; [done|].
  simpl. rewrite filter_cons_False; [done|]. simpl. discriminate.
Qed.

Lemma images_entries (fs : list Api.File) :
  (filter (λ e : string * Api.FormValue, e.1 = "images")
          (map (λ file, ("images", Api.Blob file)) fs)).*2 = Api.Blob <$> fs.
Proof.
  induction fs as [|f fs IH]; [done|].
  simpl. f_equal. exact IH.
Qed.

(** The form of an enrolment request holds the name once, and the files
    under [images], in their order. *)
Lemma enrollPerson_form n i fs a :
  Api.getAll "name" (Api.enrollPerson n i fs a) = [Api.Text n]
  ∧ Api.getAll "images" (Api.enrollPerson n i fs a) = Api.Blob <$> fs.
Proof.
  unfold Api.getAll, Api.enrollPerson, Api.post, Api.FormData. cbn [Api.body]. split.
  - rewrite filter_app, images_not_name. reflexivity.
  - rewrite filter_app, fmap_app, images_entries. reflexivity.
Qed.

(** X14. [handleSubmit] of pages/Enroll.tsx does one of two things.  With a
    name that trims to nothing (a name of white space only, Unicode spaces
    included), or without files, it shows one warning, sends nothing and
    leaves the busy flag alone.  Otherwise it sends one enrolment request,
    whose name is the trimmed one (not empty, none of the code points
    [trim] strips at either end), with the files selected, and raises the
    busy flag. *)
Theorem enroll_submit_guarded (s : Enroll.State) :
  let s' := Enroll.handleSubmit s in
  match Enroll.trim (Enroll.name s), Enroll.files s with
  | String _ _, Some (f :: fs) =>
      ∃ r, Enroll.trace s' = (Enroll.trace s ++ [Sent r])%list
           ∧ enrol_request_ok r
           ∧ Api.getAll "name" r = [Api.Text (Enroll.trim (Enroll.name s))]
           ∧ Api.getAll "images" r = Api.Blob <$> (f :: fs)
           ∧ Enroll.isSubmitting s' = true
  | _, _ =>
      ∃ m, Enroll.trace s' = (Enroll.trace s ++ [Toast m warning])%list
           ∧ Enroll.isSubmitting s' = Enroll.isSubmitting s
  end.
Proof.
  simpl. unfold Enroll.handleSubmit.
  destruct (Enroll.trim (Enroll.name s)) as [|c n] eqn:Hname; [by eexists|].
  destruct (Enroll.files s) as [[|f fs]|] eqn:Hfiles; [by eexists| |by eexists].
  eexists. split; [reflexivity|].
  destruct (enrollPerson_form (String c n) (Enroll.info_ s) (f :: fs) None)
    as [Hn Hi].
  split; [|by split; [|split]].
  exists (String c n), (Enroll.info_ s), (f :: fs). split; [done|]. split; [|done].
  rewrite <- Hname. apply trim_well_named. by rewrite Hname.
Qed.

Lemma revoke_all_trace (l : list EnrollWizard.PreviewImage) s :
  EnrollWizard.trace
    (foldl (λ s img, EnrollWizard.revokeObjectURL (EnrollWizard.preview img) s) s l)
  = EnrollWizard.trace s.
Proof. revert s. induction l as [|img l IH]; intros s; simpl; [done|]. by rewrite IH. Qed.

Lemma handleFiles_trace files s :
  EnrollWizard.trace (EnrollWizard.handleFiles files s) = EnrollWizard.trace s.
Proof.
  destruct files as [fs|]; [|done]. unfold EnrollWizard.handleFiles.
  revert s. induction fs as [|f fs IH]; intros s; [done|]. simpl.
  destruct (EnrollWizard.is_image f); [|apply IH].
  pose proof (IH (EnrollWizard.createObjectURL s).2) as IH'. simpl in *.
  by destruct (EnrollWizard.collect fs _).
Qed.

(** What one turn of the wizard adds to the requests sent: nothing, or the
    one request of a submit that passed both checks. *)
Lemma wizard_step_requests e s s' :
  EnrollWizard.step e s = Some s' →
  requests (EnrollWizard.trace s') = requests (EnrollWizard.trace s)
  ∨ ∃ r, enrol_request_ok r
         ∧ requests (EnrollWizard.trace s')
           = (requests (EnrollWizard.trace s) ++ [r])%list.
Proof.
  intros Hstep.
  destruct e; simpl in Hstep;
    try (destruct (EnrollWizard.left_page s) eqn:Hleft; [discriminate|]).
  - simplify_eq. by left.
  - simplify_eq. by left.
  - simplify_eq. left. by rewrite handleFiles_trace.
  - simplify_eq. by left.
  - simplify_eq. by left.
  - simplify_eq. left. unfold EnrollWizard.handleDrop. by rewrite handleFiles_trace.
  - unfold EnrollWizard.removeImage in Hstep.
    destruct (EnrollWizard.images s !! index); simplify_eq. by left.
  - destruct (EnrollWizard.canProceedToStep3 s); simplify_eq. left.
    unfold EnrollWizard.clearAll. simpl. by rewrite revoke_all_trace.
  - destruct (EnrollWizard.canProceedToStep2 s); simplify_eq. by left.
  - simplify_eq. by left.
  - destruct (EnrollWizard.canProceedToStep3 s); simplify_eq. by left.
  - simplify_eq. by left.
  - destruct (EnrollWizard.isSubmitting s); simplify_eq.
    unfold EnrollWizard.handleSubmit, EnrollWizard.canProceedToStep2,
      EnrollWizard.canProceedToStep3.
    destruct (Enroll.trim (EnrollWizard.name s)) as [|c n] eqn:Hname; simpl.
    { left. by rewrite requests_app, app_nil_r. }
    destruct (EnrollWizard.images s) as [|img imgs] eqn:Himgs; simpl.
    { left. by rewrite requests_app, app_nil_r. }
    right. eexists. split; [|by rewrite requests_app].
    eexists _, _, _. split; [reflexivity|]. split; [|done].
    apply trim_well_named. by rewrite Hname.
  - destruct (EnrollWizard.submitted s) as [closure|] eqn:Hsub; simplify_eq. left.
    unfold EnrollWizard.handleSubmit_settled.
    destruct r as [response|]; simpl; [|by rewrite requests_app, app_nil_r].
    destruct (ApiResponse.success response); simpl;
      [|by rewrite requests_app, app_nil_r].
    rewrite requests_app, app_nil_r, revoke_all_trace.
    destruct (truthy_flag (ApiResponse.rebuild_started response)); simpl;
      by rewrite !requests_app, !app_nil_r.
Qed.

(** X15. Whatever is done on the enrolment wizard, every request it has
    sent is an enrolment request with a proper name (not empty, none of
    the code points [trim] strips at either end) and at least one file:
    the Submit handler checks both before it sends, wherever the wizard
    stands, and nothing else on the page sends anything. *)
Theorem wizard_requests_wellformed s r :
  EnrollWizard.reachable s → r ∈ requests (EnrollWizard.trace s) →
  enrol_request_ok r.
Proof.
  intros [es Hrun].
  assert (Forall enrol_request_ok (requests (EnrollWizard.trace EnrollWizard.init)))
    as Hinit by constructor.
  revert Hrun Hinit r. generalize EnrollWizard.init.
  induction es as [|e es IH]; intros s0 Hrun Hall r; simpl in Hrun.
  - simplify_eq. rewrite Forall_forall in Hall. apply Hall.
  - destruct (EnrollWizard.step e s0) as [s1|] eqn:Hstep; [|done].
    apply (IH s1 Hrun).
    destruct (wizard_step_requests e s0 s1 Hstep) as [->|(r' & Hok & ->)]; [done|].
    apply Forall_app. split; [done|]. by constructor.
Qed.

Lemma wizard_requests_wellformed_witness :
  enrol_request_ok
    (Api.enrollPerson "Ada Lovelace" "" ["ada-1.jpg"; "ada-1.jpg"] None).
Proof.
  apply (wizard_requests_wellformed sample_submitted).
  - exists [EnrollWizard.TypeName " Ada Lovelace"; EnrollWizard.ContinueToImages;
            EnrollWizard.Drop [sample_photo; sample_scan; sample_photo];
            EnrollWizard.ContinueToReview; EnrollWizard.Submit].
    reflexivity.
  - vm_compute. apply list_elem_of_here.
Defined.

End EnrolRequestFacts.

(** ** The log page *)

Section LogFacts.





End LogFacts.

(** ** Acknowledgements of the person modal *)

Section AcknowledgementFacts.
Import PersonModal.

Lemma outcome_toasts_app l l' :
  outcome_toasts (l ++ l') = (outcome_toasts l ++ outcome_toasts l')%list.
Proof. apply List.filter_app. Qed.

Lemma opt_str_or_not_blank o d : d ≠ "" → opt_str_or o d ≠ "".
Proof. destruct o as [[|]|]; done. Qed.

Ltac acknowledge :=
  unfold acknowledged; simpl;
  repeat (rewrite ?toasts_app, ?outcome_toasts_app; simpl);
  rewrite ?app_nil_r;
  eexists; (split; [|reflexivity]); try done; by apply opt_str_or_not_blank.

(** X17. Every settled operation of the person modal is acknowledged once:
    whatever the response, the handler adds exactly one toast that is not
    informational, a success toast when the response says success and an
    error toast otherwise (also when the request is rejected), never with
    an empty text, since an empty or missing message falls back on the
    handler's own; and on every path the busy flag is cleared. *)
Theorem settlement_acknowledged (r : option ApiResponse.t) (s : State) :
  (acknowledged r (trace s) (trace (handleDelete_settled r s))
   ∧ isDeleting (handleDelete_settled r s) = false)
  ∧ (acknowledged r (trace s) (trace (handleAddImage_settled r s))
     ∧ isAdding (handleAddImage_settled r s) = false)
  ∧ (acknowledged r (trace s) (trace (handleDeleteImage_settled r s))
     ∧ deletingImage (handleDeleteImage_settled r s) = None).
Proof.
  unfold acknowledged, outcome_kind. split; [|split]; (split; [|done]).
  - unfold handleDelete_settled.
    destruct r as [response|]; [|acknowledge].
    destruct (ApiResponse.success response); [|acknowledge].
    destruct (truthy_flag (ApiResponse.rebuild_started response)); acknowledge.
  - unfold handleAddImage_settled.
    destruct r as [response|]; [|acknowledge].
    destruct (ApiResponse.success response); [|acknowledge].
    destruct (truthy_flag (ApiResponse.rebuild_started response)); acknowledge.
  - unfold handleDeleteImage_settled.
    destruct r as [response|]; [|acknowledge].
    destruct (ApiResponse.success response); [|acknowledge].
    destruct (truthy_flag (ApiResponse.rebuild_started response)); acknowledge.
Qed.

End AcknowledgementFacts.
